(** * Telemetry aggregator (src/main.c): a shallow embedding and its properties

    The program is a Zephyr application with three tasks (aggregator,
    producer, load generator) and a monitoring loop in [main].  The tasks
    communicate through bounded message queues.  This development embeds

    - the data structures and the utility functions ([is_data_fresh],
      [add_sensor_to_avg_buffer], [calculate_sensor_avg_200ms]);
    - one iteration of each task's endless loop as a function on an explicit
      state, with the clock readings of that iteration as inputs;
    - the kernel message queue ([k_msgq_put], [k_msgq_get]) as a bounded FIFO.

    Integer conventions.  [int] and [int64_t] are modelled by [Z]: signed
    overflow is undefined in C, and the timestamps are milliseconds since
    boot, so the embedding covers the executions in which no signed operation
    overflows.  The unsigned 32-bit values ([frame_counter], the [uint32_t]
    casts) wrap modulo [2^32], and the wrap is written out with [to_uint32].
    C's [/] and [%] truncate towards zero: [Z.quot] and [Z.rem]. *)

From Stdlib Require Import ZArith Lia List Bool.
From stdpp Require Import base list.

Local Open Scope Z_scope.

(** ** Data structures *)

Record telemetry_frame := {
  frame_id : Z;               (* uint32_t *)
  timestamp : Z;              (* int64_t  *)
  uptime : Z;                 (* uint32_t *)
  latest_sensor_value : Z;    (* int      *)
  sensor_avg_last_200ms : Z;  (* uint32_t *)
  degraded : bool
}.

Record sensor_data := {
  sensor_timestamp : Z;       (* int64_t timestamp *)
  sensor_value : Z            (* int *)
}.

Record uptime_data := {
  uptime_timestamp : Z;       (* int64_t timestamp *)
  uptime_seconds : Z          (* uint32_t uptime *)
}.

Definition SENSOR_AVG_BUFFER_SIZE : Z := 20.

Record sensor_avg_buffer := {
  sensor_values : list Z;     (* int     [SENSOR_AVG_BUFFER_SIZE] *)
  timestamps : list Z;        (* int64_t [SENSOR_AVG_BUFFER_SIZE] *)
  index : Z;
  count : Z
}.

(** ** Constants *)

Definition TELEMETRY_FRAME_RATE_MS : Z := 200.
Definition SYNTHETIC_SENSOR_RATE_MS : Z := 50.
Definition UPTIME_RATE_MS : Z := 1000.

Definition SENSOR_QUEUE_SIZE : nat := 10.
Definition UPTIME_QUEUE_SIZE : nat := 2.

Definition TRIGGER_SYNTHETIC_SENSOR : Z := 1.
Definition TRIGGER_UPTIME : Z := 2.

(** Conversion to [uint32_t]. *)
Definition to_uint32 (z : Z) : Z := z mod 2 ^ 32.

(** ** Utility functions *)

Definition is_data_fresh (data_timestamp current_time timeout_ms : Z) : bool :=
  current_time - data_timestamp <=? timeout_ms.

(** Reading [a[i]] of a C array held as a list.  Every read of the program
    is in range (see [buffer_wf]); the default is never used there. *)
Definition array_get (a : list Z) (i : Z) : Z := default 0 (a !! Z.to_nat i).

Definition array_set (a : list Z) (i : Z) (v : Z) : list Z := <[Z.to_nat i := v]> a.

Definition add_sensor_to_avg_buffer (buffer : sensor_avg_buffer) (data : sensor_data)
  : sensor_avg_buffer :=
  {| sensor_values := array_set (sensor_values buffer) (index buffer) (sensor_value data);
     timestamps := array_set (timestamps buffer) (index buffer) (sensor_timestamp data);
     index := Z.rem (index buffer + 1) SENSOR_AVG_BUFFER_SIZE;
     count := if count buffer <? SENSOR_AVG_BUFFER_SIZE
              then count buffer + 1 else count buffer |}.

(** One iteration of the [for] loop of [calculate_sensor_avg_200ms]: the
    accumulator is the pair [(sum, count)]. *)
Definition avg_loop_body (buffer : sensor_avg_buffer) (cutoff_time : Z)
    (acc : Z * Z) (i : nat) : Z * Z :=
  if cutoff_time <=? array_get (timestamps buffer) (Z.of_nat i)
  then (acc.1 + array_get (sensor_values buffer) (Z.of_nat i), acc.2 + 1)
  else acc.

(** [for (int i = 0; i < buffer->count; i++)]. *)
Definition avg_loop (buffer : sensor_avg_buffer) (cutoff_time : Z) : Z * Z :=
  foldl (avg_loop_body buffer cutoff_time) (0, 0) (seq 0 (Z.to_nat (count buffer))).

(** [now] is the value [get_current_timestamp_ms()] returns inside the
    function. *)
Definition calculate_sensor_avg_200ms (buffer : sensor_avg_buffer) (now : Z) : Z :=
  let cutoff_time := now - 200 in
  let '(sum, cnt) := avg_loop buffer cutoff_time in
  if 0 <? cnt then to_uint32 (Z.quot sum cnt) else 0.

(** [struct sensor_avg_buffer avg_buffer = {0};] *)
Definition avg_buffer_init : sensor_avg_buffer :=
  {| sensor_values := replicate (Z.to_nat SENSOR_AVG_BUFFER_SIZE) 0;
     timestamps := replicate (Z.to_nat SENSOR_AVG_BUFFER_SIZE) 0;
     index := 0;
     count := 0 |}.

(** ** Kernel message queues

    [K_MSGQ_DEFINE] declares a bounded FIFO of fixed-size messages.  The
    kernel is not part of the repository; the two calls the program uses are
    modelled after Zephyr's documented behaviour: [k_msgq_put] appends when
    there is room, [k_msgq_get] removes the oldest message, and a call that
    cannot proceed returns [-ENOMSG] at once under [K_NO_WAIT] and suspends
    the caller under [K_FOREVER]. *)

Record k_msgq (A : Type) := {
  max_msgs : nat;
  msgs : list A               (* oldest first *)
}.
Arguments max_msgs {A} _.
Arguments msgs {A} _.
Arguments Build_k_msgq {A} _ _.

Inductive k_timeout_t := K_NO_WAIT | K_FOREVER.

(** Outcome of a kernel call: it returns, or the calling thread pends. *)
Inductive k_result (R : Type) :=
| Returns (r : R)
| Pends.
Arguments Returns {R} _.
Arguments Pends {R}.

Definition ENOMSG : Z := 35.

Definition k_msgq_full {A} (q : k_msgq A) : bool :=
  (max_msgs q <=? length (msgs q))%nat.

Definition k_msgq_put {A} (q : k_msgq A) (data : A) (timeout : k_timeout_t)
  : k_result (Z * k_msgq A) :=
  if k_msgq_full q then
    match timeout with
    | K_NO_WAIT => Returns (- ENOMSG, q)
    | K_FOREVER => Pends
    end
  else Returns (0, Build_k_msgq (max_msgs q) (msgs q ++ [data])).

(** On success the message is copied to [*data]: the second component. *)
Definition k_msgq_get {A} (q : k_msgq A) (timeout : k_timeout_t)
  : k_result (Z * option A * k_msgq A) :=
  match msgs q with
  | m :: rest => Returns (0, Some m, Build_k_msgq (max_msgs q) rest)
  | [] =>
      match timeout with
      | K_NO_WAIT => Returns (- ENOMSG, None, q)
      | K_FOREVER => Pends
      end
  end.

(** ** Observable output

    The log level of the module is [LOG_LEVEL_WRN]: only the [LOG_WRN]
    records exist.  [printk] lines go to the console. *)

Inductive log_record :=
| WRN_sensor_trigger_queue_full      (* "Sensor Trigger queue full, dropping data" *)
| WRN_uptime_trigger_queue_full      (* "Uptime Trigger queue full, dropping data" *)
| WRN_sensor_queue_full              (* "Sensor queue full, dropping data" *)
| WRN_uptime_queue_full              (* "Uptime queue full, dropping data" *)
| WRN_frame_deadline_missed (by_ms : Z).

Inductive console_line :=
| FRAME (f : telemetry_frame)
| STATUS (frames uptime_s : Z).

(** ** Global state: the file-scope variables, the queues, the output *)

Record system := {
  frame_counter : Z;          (* static uint32_t *)
  system_start_time : Z;      (* static int64_t  *)
  sensor_msgq : k_msgq sensor_data;
  uptime_msgq : k_msgq uptime_data;
  trigger_msgq : k_msgq Z;    (* uint8_t trigger ids *)
  log : list log_record;      (* oldest first *)
  console : list console_line (* oldest first *)
}.

(** ** The aggregator task *)

(** The locals of [telemetry_aggregator_thread_func] that live across
    iterations of its loop.  [uptime_msg] and [sensor_msg] are declared
    without an initialiser. *)
Record aggregator_locals := {
  last_frame_time : Z;
  uptime_msg : uptime_data;
  sensor_msg : sensor_data;
  avg_buffer : sensor_avg_buffer
}.

(** The three readings of [get_current_timestamp_ms()] in one iteration:
    after the wake (line 225), for the frame timestamp (line 247) and inside
    [calculate_sensor_avg_200ms] (line 110). *)
Record aggregator_clock := {
  t_wake : Z;
  t_frame : Z;
  t_avg : Z
}.

(** [while (k_msgq_get(&uptime_msgq, &uptime_msg, K_NO_WAIT) == 0) {}],
    by recursion on the queued messages: each successful get overwrites
    [uptime_msg]; on the empty queue the get returns [-ENOMSG], leaves
    [uptime_msg] as it is and the loop ends. *)
Fixpoint drain_uptime (pending : list uptime_data) (uptime_msg : uptime_data)
  : uptime_data :=
  match pending with
  | [] => uptime_msg
  | m :: rest => drain_uptime rest m
  end.

(** The sensor loop, with its body: [sensor_valid = true] and the insertion
    into the average buffer. *)
Fixpoint drain_sensor (pending : list sensor_data) (sensor_valid : bool)
    (sensor_msg : sensor_data) (buffer : sensor_avg_buffer)
  : bool * sensor_data * sensor_avg_buffer :=
  match pending with
  | [] => (sensor_valid, sensor_msg, buffer)
  | m :: rest => drain_sensor rest true m (add_sensor_to_avg_buffer buffer m)
  end.

Definition drained {A} (q : k_msgq A) : k_msgq A := Build_k_msgq (max_msgs q) [].

(** [frame_deadline_met], lines 224-231. *)
Definition deadline_met (current_frame_time last_frame_time : Z) : bool :=
  negb (TELEMETRY_FRAME_RATE_MS + 10 <? current_frame_time - last_frame_time).

(** One iteration of the [while (1)] of the aggregator, from the return of
    [k_timer_status_sync] to the assignment of [last_frame_time]. *)
Definition aggregator_cycle (clk : aggregator_clock) (s : system) (l : aggregator_locals)
  : system * aggregator_locals * telemetry_frame :=
  let current_frame_time := t_wake clk in
  let frame_deadline_met := deadline_met current_frame_time (last_frame_time l) in
  let log' :=
    if frame_deadline_met then log s
    else log s ++ [WRN_frame_deadline_missed
                     (current_frame_time - last_frame_time l - TELEMETRY_FRAME_RATE_MS)] in
  let uptime_msg' := drain_uptime (msgs (uptime_msgq s)) (uptime_msg l) in
  let '(sensor_valid, sensor_msg', avg_buffer') :=
    drain_sensor (msgs (sensor_msgq s)) false (sensor_msg l) (avg_buffer l) in
  let frame_counter' := to_uint32 (frame_counter s + 1) in
  let frame_timestamp := t_frame clk in
  let degraded0 := false in
  let '(frame_uptime, degraded1) :=
    if is_data_fresh (uptime_timestamp uptime_msg') frame_timestamp (2 * UPTIME_RATE_MS + 10)
    then (uptime_seconds uptime_msg', degraded0)
    else (to_uint32 (Z.quot (frame_timestamp - system_start_time s) 1000), true) in
  let '(frame_sensor, degraded2) :=
    if sensor_valid &&
       is_data_fresh (sensor_timestamp sensor_msg') frame_timestamp
         (SYNTHETIC_SENSOR_RATE_MS + 10)
    then (sensor_value sensor_msg', degraded1)
    else (-1, true) in
  let frame :=
    {| frame_id := frame_counter';
       timestamp := frame_timestamp;
       uptime := frame_uptime;
       latest_sensor_value := frame_sensor;
       sensor_avg_last_200ms := calculate_sensor_avg_200ms avg_buffer' (t_avg clk);
       degraded := degraded2 || negb frame_deadline_met |} in
  ({| frame_counter := frame_counter';
      system_start_time := system_start_time s;
      sensor_msgq := drained (sensor_msgq s);
      uptime_msgq := drained (uptime_msgq s);
      trigger_msgq := trigger_msgq s;
      log := log';
      console := console s ++ [FRAME frame] |},
   {| last_frame_time := frame_timestamp;
      uptime_msg := uptime_msg';
      sensor_msg := sensor_msg';
      avg_buffer := avg_buffer' |},
   frame).

(** The locals when the loop is entered: [last_frame_time] was read from the
    clock ([t_start]), the buffer is zeroed, and the two message variables
    hold whatever their stack slots held. *)
Definition aggregator_init (t_start : Z) (uptime_slot : uptime_data)
    (sensor_slot : sensor_data) : aggregator_locals :=
  {| last_frame_time := t_start;
     uptime_msg := uptime_slot;
     sensor_msg := sensor_slot;
     avg_buffer := avg_buffer_init |}.

(** The state [main] hands to the tasks: counter zero, start time read from
    the clock, queues empty. *)
Definition system_init (t_boot : Z) : system :=
  {| frame_counter := 0;
     system_start_time := t_boot;
     sensor_msgq := Build_k_msgq SENSOR_QUEUE_SIZE [];
     uptime_msgq := Build_k_msgq UPTIME_QUEUE_SIZE [];
     trigger_msgq := Build_k_msgq (SENSOR_QUEUE_SIZE + UPTIME_QUEUE_SIZE) [];
     log := [];
     console := [] |}.

(** ** Updating one field of the global state *)

Definition with_frame_counter (s : system) (c : Z) : system :=
  {| frame_counter := c; system_start_time := system_start_time s;
     sensor_msgq := sensor_msgq s; uptime_msgq := uptime_msgq s;
     trigger_msgq := trigger_msgq s; log := log s; console := console s |}.

Definition with_sensor_msgq (s : system) (q : k_msgq sensor_data) : system :=
  {| frame_counter := frame_counter s; system_start_time := system_start_time s;
     sensor_msgq := q; uptime_msgq := uptime_msgq s;
     trigger_msgq := trigger_msgq s; log := log s; console := console s |}.

Definition with_uptime_msgq (s : system) (q : k_msgq uptime_data) : system :=
  {| frame_counter := frame_counter s; system_start_time := system_start_time s;
     sensor_msgq := sensor_msgq s; uptime_msgq := q;
     trigger_msgq := trigger_msgq s; log := log s; console := console s |}.

Definition with_trigger_msgq (s : system) (q : k_msgq Z) : system :=
  {| frame_counter := frame_counter s; system_start_time := system_start_time s;
     sensor_msgq := sensor_msgq s; uptime_msgq := uptime_msgq s;
     trigger_msgq := q; log := log s; console := console s |}.

(** [LOG_WRN(...)] *)
Definition LOG_WRN (s : system) (r : log_record) : system :=
  {| frame_counter := frame_counter s; system_start_time := system_start_time s;
     sensor_msgq := sensor_msgq s; uptime_msgq := uptime_msgq s;
     trigger_msgq := trigger_msgq s; log := log s ++ [r]; console := console s |}.

(** [printk(...)] *)
Definition printk (s : system) (line : console_line) : system :=
  {| frame_counter := frame_counter s; system_start_time := system_start_time s;
     sensor_msgq := sensor_msgq s; uptime_msgq := uptime_msgq s;
     trigger_msgq := trigger_msgq s; log := log s; console := console s ++ [line] |}.

(** Sequencing of kernel calls: a pending call suspends the whole path.
    [k_result] is a monad in stdpp's sense, which provides the notation
    [x ← c; k]. *)
#[global] Instance k_result_ret : MRet k_result := @Returns.

#[global] Instance k_result_bind : MBind k_result := fun R S k c =>
  match c with
  | Returns r => k r
  | Pends => Pends
  end.

(** ** Work handlers (system work queue) *)

Definition synthetic_sensor_work_handler (s : system) : k_result system :=
  let trigger_id := TRIGGER_SYNTHETIC_SENSOR in
  '(ret, q) ← k_msgq_put (trigger_msgq s) trigger_id K_NO_WAIT;
  let s := with_trigger_msgq s q in
  Returns (if ret =? 0 then s else LOG_WRN s WRN_sensor_trigger_queue_full).

Definition uptime_work_handler (s : system) : k_result system :=
  let trigger_id := TRIGGER_UPTIME in
  '(ret, q) ← k_msgq_put (trigger_msgq s) trigger_id K_NO_WAIT;
  let s := with_trigger_msgq s q in
  Returns (if ret =? 0 then s else LOG_WRN s WRN_uptime_trigger_queue_full).

(** ** The producer task *)

(** Conversion of an unsigned 32-bit value to [int]. *)
Definition to_int32 (z : Z) : Z :=
  let u := z mod 2 ^ 32 in if u <? 2 ^ 31 then u else u - 2 ^ 32.

(** [synthetic_sensor_data].  The floating-point part is an input: [sine] is
    the value of [(int)(50.0 * sin(angle))] for the current [counter];
    [rand] is what [sys_rand32_get()] returns.  The noise is computed in
    unsigned arithmetic and converted to [int]. *)
Definition synthetic_sensor_data (now sine rand : Z) : sensor_data :=
  let base_value := sine + 50 in
  let noise := to_int32 (to_uint32 (rand mod 21 - 10)) in
  let v := base_value + noise in
  let v := if v <? 0 then 0 else v in
  let v := if 100 <? v then 100 else v in
  {| sensor_timestamp := now; sensor_value := v |}.

(** What the producer keeps between iterations: the [static] call counter of
    [synthetic_sensor_data] and the local [trigger_id], which is declared
    without an initialiser and written by [k_msgq_get]. *)
Record producer_locals := {
  counter : Z;                (* static uint32_t *)
  trigger_id : Z              (* uint8_t *)
}.

(** The readings one producer iteration takes from its environment. *)
Record producer_input := {
  p_now : Z;
  p_sine : Z;
  p_rand : Z
}.

(** One iteration of the producer's [while (1)]. *)
Definition producer_iteration (inp : producer_input) (s : system) (p : producer_locals)
  : k_result (system * producer_locals) :=
  '(_, received, tq) ← k_msgq_get (trigger_msgq s) K_FOREVER;
  let s := with_trigger_msgq s tq in
  let trigger_id := default (trigger_id p) received in
  if trigger_id =? TRIGGER_SYNTHETIC_SENSOR then
    let sensor_msg := synthetic_sensor_data (p_now inp) (p_sine inp) (p_rand inp) in
    let p := {| counter := to_uint32 (counter p + 1); trigger_id := trigger_id |} in
    '(ret, q) ← k_msgq_put (sensor_msgq s) sensor_msg K_NO_WAIT;
    let s := with_sensor_msgq s q in
    Returns (if ret =? 0 then s else LOG_WRN s WRN_sensor_queue_full, p)
  else if trigger_id =? TRIGGER_UPTIME then
    let uptime_msg :=
      {| uptime_timestamp := p_now inp;
         uptime_seconds := to_uint32 (Z.quot (p_now inp - system_start_time s) 1000) |} in
    let p := {| counter := counter p; trigger_id := trigger_id |} in
    '(ret, q) ← k_msgq_put (uptime_msgq s) uptime_msg K_NO_WAIT;
    let s := with_uptime_msgq s q in
    Returns (if ret =? 0 then s else LOG_WRN s WRN_uptime_queue_full, p)
  else
    Returns (s, {| counter := counter p; trigger_id := trigger_id |}).

(** ** The monitoring loop of [main] *)

(** One iteration after [k_sleep] returns; [last_status_time] is the loop's
    local. *)
Definition main_iteration (now : Z) (s : system) (last_status_time : Z) : system * Z :=
  let current_time := now in
  if 10000 <=? current_time - last_status_time then
    (printk s (STATUS (frame_counter s)
                 (Z.quot (current_time - system_start_time s) 1000)),
     current_time)
  else (s, last_status_time).

(** ** The load generator

    The interval and duration bounds come from the build configuration
    ([CONFIG_...], not in the source file): they are parameters here.  The
    task sleeps, then spins on the clock; it uses no variable of the other
    tasks and no queue. *)
Record load_config := {
  NEXT_LOAD_SPIKE_MIN_INTERVAL_MS : Z;
  NEXT_LOAD_SPIKE_MAX_INTERVAL_MS : Z;
  LOAD_SPIKE_MIN_DURATION_MS : Z;
  LOAD_SPIKE_MAX_DURATION_MS : Z
}.

(** The sleep interval and the burst duration of one iteration, in unsigned
    32-bit arithmetic, from two readings of [sys_rand32_get()]. *)
Definition load_spike_iteration (cfg : load_config) (rand1 rand2 : Z) (s : system)
  : system * (Z * Z) :=
  let next_load_spike_interval :=
    to_uint32 (NEXT_LOAD_SPIKE_MIN_INTERVAL_MS cfg +
               rand1 mod to_uint32 (NEXT_LOAD_SPIKE_MAX_INTERVAL_MS cfg -
                                    NEXT_LOAD_SPIKE_MIN_INTERVAL_MS cfg)) in
  let load_spike_burst_duration :=
    to_uint32 (LOAD_SPIKE_MIN_DURATION_MS cfg +
               rand2 mod to_uint32 (LOAD_SPIKE_MAX_DURATION_MS cfg -
                                    LOAD_SPIKE_MIN_DURATION_MS cfg)) in
  (s, (next_load_spike_interval, load_spike_burst_duration)).

(** ** The whole program

    The tasks are interleaved at the granularity of one loop iteration (one
    handler run).  A task whose kernel call pends stays where it is: the
    state is unchanged. *)

Record world := {
  sys : system;
  agg : aggregator_locals;    (* locals of the aggregator *)
  prod : producer_locals;     (* locals of the producer *)
  last_status_time : Z        (* local of [main] *)
}.

Inductive event :=
| SensorTimerExpiry                       (* synthetic_sensor_timer, then its work item *)
| UptimeTimerExpiry                       (* uptime_timer, then its work item *)
| ProducerRuns (inp : producer_input)
| AggregatorRuns (clk : aggregator_clock)
| MainRuns (now : Z)
| LoadSpikeRuns (cfg : load_config) (rand1 rand2 : Z).

Definition with_sys (w : world) (s : system) : world :=
  {| sys := s; agg := agg w; prod := prod w; last_status_time := last_status_time w |}.

Definition step (w : world) (ev : event) : world :=
  match ev with
  | SensorTimerExpiry =>
      match synthetic_sensor_work_handler (sys w) with
      | Returns s => with_sys w s
      | Pends => w
      end
  | UptimeTimerExpiry =>
      match uptime_work_handler (sys w) with
      | Returns s => with_sys w s
      | Pends => w
      end
  | ProducerRuns inp =>
      match producer_iteration inp (sys w) (prod w) with
      | Returns (s, p) =>
          {| sys := s; agg := agg w; prod := p; last_status_time := last_status_time w |}
      | Pends => w
      end
  | AggregatorRuns clk =>
      let '(s, l, _) := aggregator_cycle clk (sys w) (agg w) in
      {| sys := s; agg := l; prod := prod w; last_status_time := last_status_time w |}
  | MainRuns now =>
      let '(s, t) := main_iteration now (sys w) (last_status_time w) in
      {| sys := s; agg := agg w; prod := prod w; last_status_time := t |}
  | LoadSpikeRuns cfg rand1 rand2 =>
      with_sys w (load_spike_iteration cfg rand1 rand2 (sys w)).1
  end.

Definition run (w : world) (evs : list event) : world := foldl step w evs.

(** The world when the tasks start.  [t_boot] is the clock reading of
    [main], [t_start] the one the aggregator takes before its loop; the
    remaining arguments are the contents of the variables the program never
    initialises. *)
Definition world_init (t_boot t_start : Z) (uptime_slot : uptime_data)
    (sensor_slot : sensor_data) (trigger_slot : Z) : world :=
  {| sys := system_init t_boot;
     agg := aggregator_init t_start uptime_slot sensor_slot;
     prod := {| counter := 0; trigger_id := trigger_slot |};
     last_status_time := t_boot |}.

(** The frames on the console, oldest first. *)
Definition frames_of (lines : list console_line) : list telemetry_frame :=
  omap (fun line => match line with FRAME f => Some f | STATUS _ _ => None end) lines.

Definition emitted_frames (w : world) : list telemetry_frame :=
  frames_of (console (sys w)).

(** The frame of one aggregator iteration. *)
Definition cycle_frame (clk : aggregator_clock) (s : system) (l : aggregator_locals)
  : telemetry_frame := (aggregator_cycle clk s l).2.

(** ** Words of the specification *)

(** The ring entries: the [count] slots in use, as (timestamp, value) pairs. *)
Definition ring_entries (buffer : sensor_avg_buffer) : list (Z * Z) :=
  take (Z.to_nat (count buffer)) (zip (timestamps buffer) (sensor_values buffer)).

(** The entries whose timestamp is at least [now - 200]. *)
Definition in_window (now : Z) (entries : list (Z * Z)) : list (Z * Z) :=
  filter (fun e => now - 200 <= e.1) entries.

Definition sum_list (l : list Z) : Z := foldr Z.add 0 l.

(** The mean of a list of integers, as an integer (rounded towards zero);
    0 for the empty list. *)
Definition mean (l : list Z) : Z :=
  match l with
  | [] => 0
  | _ => Z.quot (sum_list l) (Z.of_nat (length l))
  end.

(** The invariant of the buffer: both arrays have [SENSOR_AVG_BUFFER_SIZE]
    slots, and [index] and [count] stay within them. *)
Record buffer_wf (buffer : sensor_avg_buffer) : Prop := {
  wf_values : length (sensor_values buffer) = Z.to_nat SENSOR_AVG_BUFFER_SIZE;
  wf_timestamps : length (timestamps buffer) = Z.to_nat SENSOR_AVG_BUFFER_SIZE;
  wf_index : 0 <= index buffer < SENSOR_AVG_BUFFER_SIZE;
  wf_count : 0 <= count buffer <= SENSOR_AVG_BUFFER_SIZE
}.

(** The data model's range of sensor values. *)
Definition value_in_range (v : Z) : Prop := 0 <= v <= 100.

(** Every slot of the value array holds a sensor value. *)
Definition buffer_values_in_range (buffer : sensor_avg_buffer) : Prop :=
  Forall value_in_range (sensor_values buffer).

(** The invariant of the running program that the average relies on: the
    queued samples and the buffered values are sensor values, and the buffer
    is well formed. *)
Record world_inv (w : world) : Prop := {
  inv_queue : Forall (fun m => value_in_range (sensor_value m)) (msgs (sensor_msgq (sys w)));
  inv_values : buffer_values_in_range (avg_buffer (agg w));
  inv_wf : buffer_wf (avg_buffer (agg w))
}.

(** The sample the aggregator holds as current after the drain of a queue
    with messages [pending]: the last one drained, if any. *)
Definition last_drained {A} (pending : list A) : option A := last pending.

(** The uptime sample the freshness check of a cycle looks at: the last one
    drained in this cycle, else what [uptime_msg] held before. *)
Definition current_uptime (s : system) (l : aggregator_locals) : uptime_data :=
  default (uptime_msg l) (last_drained (msgs (uptime_msgq s))).

(** The three checks of a cycle as the code evaluates them.  The uptime
    check looks at [current_uptime], that is at whatever [uptime_msg] holds:
    before the first uptime sample has been drained it tests the content of
    the uninitialised variable, not a sample (see [uptime_sample_fresh] for
    the condition on the samples). *)
Definition uptime_stale (clk : aggregator_clock) (s : system) (l : aggregator_locals)
  : Prop :=
  2010 < t_frame clk - uptime_timestamp (current_uptime s l).

Definition sensor_fresh (clk : aggregator_clock) (s : system) : Prop :=
  exists m, last_drained (msgs (sensor_msgq s)) = Some m /\
            t_frame clk - sensor_timestamp m <= 60.

Definition deadline_missed (clk : aggregator_clock) (l : aggregator_locals) : Prop :=
  210 < t_wake clk - last_frame_time l.

(** The fallback value of the uptime field. *)
Definition uptime_fallback (clk : aggregator_clock) (s : system) : Z :=
  to_uint32 (Z.quot (t_frame clk - system_start_time s) 1000).

(** The two freshness checks of a cycle, as the code evaluates them. *)
Definition sensor_fresh_b (clk : aggregator_clock) (s : system) : bool :=
  match last_drained (msgs (sensor_msgq s)) with
  | Some m => is_data_fresh (sensor_timestamp m) (t_frame clk) 60
  | None => false
  end.

Definition uptime_fresh_b (clk : aggregator_clock) (s : system) (l : aggregator_locals)
  : bool :=
  is_data_fresh (uptime_timestamp (current_uptime s l)) (t_frame clk) 2010.

(** ** Runs of the program *)

(** Whether an event is an iteration of the aggregator. *)
Definition is_aggregator_event (ev : event) : bool :=
  match ev with AggregatorRuns _ => true | _ => false end.

Definition is_main_event (ev : event) : bool :=
  match ev with MainRuns _ => true | _ => false end.

(** The number of aggregator iterations in a run. *)
Definition aggregator_cycles (evs : list event) : nat :=
  length (filter (fun ev => is_aggregator_event ev = true) evs).

(** Whether every aggregator cycle of a run found the uptime queue empty:
    no uptime sample has been drained so far. *)
Fixpoint no_uptime_drained (w : world) (evs : list event) : bool :=
  match evs with
  | [] => true
  | ev :: rest =>
      match ev with
      | AggregatorRuns _ =>
          match msgs (uptime_msgq (sys w)) with [] => true | _ :: _ => false end
      | _ => true
      end && no_uptime_drained (step w ev) rest
  end.

(** Overwriting the frame counter or the average buffer.  A task that
    neither reads nor writes a variable behaves the same when the variable
    is overwritten before it runs: its step commutes with the overwrite. *)
Definition overwrite_frame_counter (w : world) (c : Z) : world :=
  with_sys w (with_frame_counter (sys w) c).

Definition overwrite_avg_buffer (w : world) (b : sensor_avg_buffer) : world :=
  {| sys := sys w;
     agg := {| last_frame_time := last_frame_time (agg w);
               uptime_msg := uptime_msg (agg w);
               sensor_msg := sensor_msg (agg w);
               avg_buffer := b |};
     prod := prod w;
     last_status_time := last_status_time w |}.

(** The uptime samples the aggregator has drained in a run, oldest first:
    each of its cycles drains what the uptime queue holds. *)
Fixpoint drained_uptime_samples (w : world) (evs : list event) : list uptime_data :=
  match evs with
  | [] => []
  | ev :: rest =>
      match ev with
      | AggregatorRuns _ => msgs (uptime_msgq (sys w))
      | _ => []
      end ++ drained_uptime_samples (step w ev) rest
  end.

(** The current uptime sample of the cycle that follows the run [evs] from
    [w]: the most recent sample the aggregator has drained once that cycle
    has drained the queue; none if no uptime sample has reached it yet. *)
Definition latest_uptime_sample (w : world) (evs : list event) : option uptime_data :=
  last (drained_uptime_samples w evs ++ msgs (uptime_msgq (sys (run w evs)))).

(** Freshness of the uptime input, on the samples: there is a current uptime
    sample and it is at most 2010 ms old at the frame's timestamp. *)
Definition uptime_sample_fresh (clk : aggregator_clock) (w : world) (evs : list event)
  : Prop :=
  exists m, latest_uptime_sample w evs = Some m /\
            t_frame clk - uptime_timestamp m <= 2010.

(** The time the deadline check of the next cycle measures from: the
    timestamp of the last frame emitted, or the time the aggregator entered
    its loop if it has emitted none. *)
Definition deadline_reference (t_start : Z) (w : world) : Z :=
  default t_start (timestamp <$> last (emitted_frames w)).

(** ** States and runs used as examples *)

(** A sensor sample, a clock that reads [t] three times, the producer's
    readings at [t]. *)
Definition sensor_at (t v : Z) : sensor_data :=
  {| sensor_timestamp := t; sensor_value := v |}.

Definition clock_at (t : Z) : aggregator_clock :=
  {| t_wake := t; t_frame := t; t_avg := t |}.

Definition producer_at (t : Z) : producer_input :=
  {| p_now := t; p_sine := 0; p_rand := 10 |}.

(** The sensor timer expires and the producer publishes a sample at [t]. *)
Definition publish_sensor (t : Z) : list event :=
  [SensorTimerExpiry; ProducerRuns (producer_at t)].

(** *** The first 200 ms after boot

    The sensor timer expires at 50, 100 and 150 ms, and the producer
    publishes a sample each time; the uptime timer has not expired yet (its
    period is 1000 ms).  At 200 ms the aggregator wakes for its first cycle. *)
Definition first_cycle_trace : list event :=
  [ SensorTimerExpiry; ProducerRuns {| p_now := 50; p_sine := 0; p_rand := 10 |};
    SensorTimerExpiry; ProducerRuns {| p_now := 100; p_sine := 3; p_rand := 10 |};
    SensorTimerExpiry; ProducerRuns {| p_now := 150; p_sine := 6; p_rand := 10 |};
    AggregatorRuns {| t_wake := 200; t_frame := 200; t_avg := 200 |} ].

(** The same run, stopped before the aggregator's first cycle. *)
Definition before_first_cycle : list event := take 6 first_cycle_trace.

(** Two possible contents of the stack slot of [uptime_msg]. *)
Definition zeroed_slot : uptime_data :=
  {| uptime_timestamp := 0; uptime_seconds := 0 |}.

Definition leftover_slot : uptime_data :=
  {| uptime_timestamp := 100; uptime_seconds := 777 |}.

Definition any_sensor_slot : sensor_data :=
  {| sensor_timestamp := 0; sensor_value := 0 |}.

Definition cold_boot (uptime_slot : uptime_data) : world :=
  world_init 0 0 uptime_slot any_sensor_slot 0.

(** *** A running system, one second after boot

    The aggregator has emitted five frames, the last one at 1000 ms; the
    producer has since published the uptime sample of 1000 ms and three
    sensor samples. *)
Definition running_world : world :=
  {| sys := {| frame_counter := 5;
               system_start_time := 0;
               sensor_msgq := Build_k_msgq SENSOR_QUEUE_SIZE
                                [sensor_at 1050 50; sensor_at 1100 53; sensor_at 1150 56];
               uptime_msgq := Build_k_msgq UPTIME_QUEUE_SIZE
                                [{| uptime_timestamp := 1000; uptime_seconds := 1 |}];
               trigger_msgq := Build_k_msgq (SENSOR_QUEUE_SIZE + UPTIME_QUEUE_SIZE) [];
               log := [];
               console := [] |};
     agg := {| last_frame_time := 1000;
               uptime_msg := zeroed_slot;
               sensor_msg := sensor_at 950 50;
               avg_buffer := avg_buffer_init |};
     prod := {| counter := 23; trigger_id := TRIGGER_UPTIME |};
     last_status_time := 0 |}.

(** A cycle that wakes at 1200 ms and stamps its frame at 1201 ms, four
    sensor samples, and a wake at 1411 ms: 211 ms after the previous wake,
    210 ms after the previous frame's timestamp. *)
Definition slipped_first : aggregator_clock :=
  {| t_wake := 1200; t_frame := 1201; t_avg := 1201 |}.

Definition slipped_second : aggregator_clock := clock_at 1411.

Definition slipped_wake_trace : list event :=
  [AggregatorRuns slipped_first]
  ++ publish_sensor 1250 ++ publish_sensor 1300 ++ publish_sensor 1350
  ++ publish_sensor 1400
  ++ [AggregatorRuns slipped_second].

(** The samples published between a late cycle at 1215 ms and the next
    cycle at 1400 ms. *)
Definition between_cycles : list event :=
  publish_sensor 1250 ++ publish_sensor 1300 ++ publish_sensor 1350.

(** *** The scenario of the specification: samples 40, 42, 44, 46 *)
Definition scenario_sensor_samples : list sensor_data :=
  [sensor_at 0 40; sensor_at 50 42; sensor_at 100 44; sensor_at 150 46].



(** The buffer after the scenario's four samples. *)
Definition scenario_buffer : sensor_avg_buffer :=
  foldl add_sensor_to_avg_buffer avg_buffer_init scenario_sensor_samples.

(** *** A run of [2^32] aggregator cycles, 200 ms apart *)
Definition cycle_number (k : nat) : event := AggregatorRuns (clock_at (200 * Z.of_nat k)).

Definition cycles (n : nat) : list event := cycle_number <$> seq 1 n.

(** *** Both data queues full, two triggers waiting

    The aggregator has not run since its frame of 1000 ms. *)
Definition saturated_system : system :=
  {| frame_counter := 5;
     system_start_time := 0;
     sensor_msgq := Build_k_msgq SENSOR_QUEUE_SIZE
                      ((fun k => sensor_at (1000 + 50 * Z.of_nat k) 50) <$> seq 1 10);
     uptime_msgq := Build_k_msgq UPTIME_QUEUE_SIZE
                      [{| uptime_timestamp := 1000; uptime_seconds := 1 |};
                       {| uptime_timestamp := 2000; uptime_seconds := 2 |}];
     trigger_msgq := Build_k_msgq (SENSOR_QUEUE_SIZE + UPTIME_QUEUE_SIZE)
                       [TRIGGER_SYNTHETIC_SENSOR; TRIGGER_UPTIME];
     log := [];
     console := [] |}.

(** Unfolds the kernel calls and their sequencing. *)
Ltac unfold_kernel :=
  unfold mbind, k_result_bind, k_msgq_put, k_msgq_get in *.

(** *** A late cycle after one second of on-time cycles

    Five cycles on schedule, the uptime sample of 1000 ms and two sensor
    samples; the sixth cycle then wakes at 1215 ms.  After it, three more
    sensor samples and a cycle at 1400 ms. *)
Definition late_cycle_trace : list event :=
  cycles 5 ++ [UptimeTimerExpiry; ProducerRuns (producer_at 1000)]
  ++ publish_sensor 1150 ++ publish_sensor 1200.

Definition recovered_trace : list event :=
  late_cycle_trace ++ [AggregatorRuns (clock_at 1215)] ++ between_cycles.

(** ** Words for the properties beyond the specification *)

(** The slot of the ring that the [j]-th inserted sample (counted from 0)
    goes to. *)
Definition slot_of (j : nat) : nat := (j mod 20)%nat.

(** A sensor sample as a ring entry. *)
Definition entry_of (d : sensor_data) : Z * Z := (sensor_timestamp d, sensor_value d).

(** The buffer after the samples [history] have been inserted, oldest first,
    into the zeroed buffer. *)
Definition buffer_after (history : list sensor_data) : sensor_avg_buffer :=
  foldl add_sensor_to_avg_buffer avg_buffer_init history.

(** The most recent [SENSOR_AVG_BUFFER_SIZE] samples of a history. *)
Definition most_recent (history : list sensor_data) : list sensor_data :=
  drop (length history - Z.to_nat SENSOR_AVG_BUFFER_SIZE) history.

(** Arithmetic goals with [mod], [quot] and [rem] by constants. *)
Ltac mod_lia := Z.to_euclidean_division_equations; lia.

(** A history of 25 samples, 10 ms apart: five of value 100, then the values
    6 to 25. *)
Definition dense_history : list sensor_data :=
  (fun k => sensor_at (10 * Z.of_nat k) (if (k <=? 5)%nat then 100 else Z.of_nat k))
    <$> seq 1 25.

(** Two worlds that differ at most in the producer's [trigger_id]. *)
Definition same_but_trigger_id (w1 w2 : world) : Prop :=
  sys w1 = sys w2 /\ agg w1 = agg w2 /\
  last_status_time w1 = last_status_time w2 /\
  counter (prod w1) = counter (prod w2).

(** An uptime sample computed from its own timestamp and the boot time, as
    the producer does. *)
Definition uptime_consistent (t_boot : Z) (m : uptime_data) : Prop :=
  uptime_seconds m = to_uint32 (Z.quot (uptime_timestamp m - t_boot) 1000).

(** The start time is the one [main] read, and every queued uptime sample is
    consistent with it. *)
Definition uptime_inv (t_boot : Z) (w : world) : Prop :=
  system_start_time (sys w) = t_boot /\
  Forall (uptime_consistent t_boot) (msgs (uptime_msgq (sys w))).

(** The first uptime sample after boot. *)
Definition first_uptime_trace : list event :=
  [UptimeTimerExpiry; ProducerRuns (producer_at 1000)].

(** Whether every ring entry is older than the window of a read at [now]. *)
Definition window_empty (now : Z) (buffer : sensor_avg_buffer) : Prop :=
  Forall (fun e => e.1 < now - 200) (ring_entries buffer).

(** Three cycles without any producer activity, after the running system's
    queues have been drained at 1200 ms. *)
Definition starved_clocks : list aggregator_clock :=
  [clock_at 1400; clock_at 1600; clock_at 1800].

(** The overages of the deadline warnings in a log, oldest first. *)
Definition deadline_warnings (records : list log_record) : list Z :=
  omap (fun r => match r with
                 | WRN_frame_deadline_missed by_ms => Some by_ms
                 | _ => None
                 end) records.

(** The degraded frames among a list of frames. *)
Definition degraded_frames (frames : list telemetry_frame) : list telemetry_frame :=
  filter (fun f => degraded f = true) frames.

(** A configuration of the load generator: spikes of 50 to 150 ms, 500 to
    2000 ms apart. *)
Definition example_load_config : load_config :=
  {| NEXT_LOAD_SPIKE_MIN_INTERVAL_MS := 500;
     NEXT_LOAD_SPIKE_MAX_INTERVAL_MS := 2000;
     LOAD_SPIKE_MIN_DURATION_MS := 50;
     LOAD_SPIKE_MAX_DURATION_MS := 150 |}.

(** Every waiting trigger is one of the two the work handlers send. *)
Definition triggers_valid (s : system) : Prop :=
  Forall (fun tid => tid = TRIGGER_SYNTHETIC_SENSOR \/ tid = TRIGGER_UPTIME)
         (msgs (trigger_msgq s)).

(** Samples queued plus warnings logged. *)
Definition samples_and_warnings (s : system) : nat :=
  (length (msgs (sensor_msgq s)) + length (msgs (uptime_msgq s)) + length (log s))%nat.

(** The sensor samples the aggregator has drained in a run, oldest first:
    each of its cycles drains what the sensor queue holds. *)
Fixpoint drained_samples (w : world) (evs : list event) : list sensor_data :=
  match evs with
  | [] => []
  | ev :: rest =>
      match ev with
      | AggregatorRuns _ => msgs (sensor_msgq (sys w))
      | _ => []
      end ++ drained_samples (step w ev) rest
  end.

(** What a consumer of the frames can rely on: the sensor field is the
    sentinel or a sensor value, the sentinel only on a degraded frame, and
    the average is a sensor value. *)
Definition frame_fields_ok (f : telemetry_frame) : Prop :=
  (latest_sensor_value f = -1 \/ 0 <= latest_sensor_value f <= 100) /\
  (latest_sensor_value f = -1 -> degraded f = true) /\
  0 <= sensor_avg_last_200ms f <= 100.

(** The uptimes printed in the status lines of a console, oldest first. *)
Definition status_uptimes (lines : list console_line) : list Z :=
  omap (fun line => match line with
                    | STATUS _ uptime_s => Some uptime_s
                    | FRAME _ => None
                    end) lines.

(** Each element is at least 10 above its predecessor, the first one above
    [previous]. *)
Fixpoint spaced_by_10 (previous : Z) (uptimes : list Z) : Prop :=
  match uptimes with
  | [] => True
  | u :: rest => previous + 10 <= u /\ spaced_by_10 u rest
  end.

(** The monitoring loop wakes every 5 s for 25 s; some frames in between. *)
Definition monitoring_trace : list event :=
  [MainRuns 5000; AggregatorRuns (clock_at 5200); MainRuns 10000; MainRuns 15000;
   AggregatorRuns (clock_at 15200); MainRuns 20001; MainRuns 25001].

(** The sensor samples the sensor queue has accepted in a run, oldest first:
    the producer offers one when the trigger it receives is a sensor trigger,
    and the queue accepts it when it has room. *)
Fixpoint published_samples (w : world) (evs : list event) : list sensor_data :=
  match evs with
  | [] => []
  | ev :: rest =>
      match ev, msgs (trigger_msgq (sys w)) with
      | ProducerRuns inp, tid :: _ =>
          if (tid =? TRIGGER_SYNTHETIC_SENSOR) && negb (k_msgq_full (sensor_msgq (sys w)))
          then [synthetic_sensor_data (p_now inp) (p_sine inp) (p_rand inp)]
          else []
      | _, _ => []
      end ++ published_samples (step w ev) rest
  end.

(** * Properties *)

(** ** The drain loops *)

Lemma default_last_cons {A} (cur m : A) (rest : list A) :
  default cur (last (m :: rest)) = default m (last rest).
Proof.
  revert cur m. induction rest as [|m' rest IH]; intros cur m; [done|].
  by rewrite last_cons_cons, (IH cur m'), (IH m m').
Qed.

Lemma drain_uptime_last (pending : list uptime_data) (cur : uptime_data) :
  drain_uptime pending cur = default cur (last_drained pending).
Proof.
  revert cur. induction pending as [|m rest IH]; intros cur; [done|].
  cbn [drain_uptime]. rewrite IH. unfold last_drained.
  by rewrite default_last_cons.
Qed.

Lemma drain_sensor_spec (pending : list sensor_data) (valid : bool)
    (cur : sensor_data) (buffer : sensor_avg_buffer) :
  drain_sensor pending valid cur buffer =
  (match pending with [] => valid | _ => true end,
   default cur (last_drained pending),
   foldl add_sensor_to_avg_buffer buffer pending).
Proof.
  revert valid cur buffer.
  induction pending as [|m rest IH]; intros valid cur buffer; [done|].
  cbn [drain_sensor]. rewrite IH. unfold last_drained.
  rewrite default_last_cons. by destruct rest.
Qed.

(** ** One aggregator cycle in closed form *)

Lemma cycle_frame_eq (clk : aggregator_clock) (s : system) (l : aggregator_locals) :
  cycle_frame clk s l =
  {| frame_id := to_uint32 (frame_counter s + 1);
     timestamp := t_frame clk;
     uptime := if uptime_fresh_b clk s l
               then uptime_seconds (current_uptime s l)
               else uptime_fallback clk s;
     latest_sensor_value :=
       match last_drained (msgs (sensor_msgq s)) with
       | Some m => if is_data_fresh (sensor_timestamp m) (t_frame clk) 60
                   then sensor_value m else -1
       | None => -1
       end;
     sensor_avg_last_200ms :=
       calculate_sensor_avg_200ms
         (foldl add_sensor_to_avg_buffer (avg_buffer l) (msgs (sensor_msgq s)))
         (t_avg clk);
     degraded := negb (uptime_fresh_b clk s l) || negb (sensor_fresh_b clk s)
                 || negb (deadline_met (t_wake clk) (last_frame_time l)) |}.
Proof.
  unfold cycle_frame, aggregator_cycle.
  rewrite drain_uptime_last, drain_sensor_spec.
  unfold uptime_fresh_b, sensor_fresh_b, current_uptime, uptime_fallback.
  change (2 * UPTIME_RATE_MS + 10) with 2010.
  change (SYNTHETIC_SENSOR_RATE_MS + 10) with 60.
  unfold last_drained.
  destruct (last (msgs (sensor_msgq s))) as [m'|] eqn:Hlast.
  - destruct (msgs (sensor_msgq s)) as [|m rest]; [done|]. cbn.
    by destruct (is_data_fresh (uptime_timestamp _) _ 2010),
               (is_data_fresh (sensor_timestamp m') _ 60).
  - apply last_None in Hlast. rewrite Hlast. cbn.
    by destruct (is_data_fresh (uptime_timestamp _) _ 2010).
Qed.

(** The global state after a cycle. *)
Lemma aggregator_cycle_sys (clk : aggregator_clock) (s : system) (l : aggregator_locals) :
  (aggregator_cycle clk s l).1.1 =
  {| frame_counter := to_uint32 (frame_counter s + 1);
     system_start_time := system_start_time s;
     sensor_msgq := drained (sensor_msgq s);
     uptime_msgq := drained (uptime_msgq s);
     trigger_msgq := trigger_msgq s;
     log := if deadline_met (t_wake clk) (last_frame_time l) then log s
            else log s ++ [WRN_frame_deadline_missed
                             (t_wake clk - last_frame_time l - TELEMETRY_FRAME_RATE_MS)];
     console := console s ++ [FRAME (cycle_frame clk s l)] |}.
Proof.
  unfold cycle_frame, aggregator_cycle.
  destruct (drain_sensor _ _ _ _) as [[valid m] buffer].
  destruct (is_data_fresh (uptime_timestamp _) _ _);
    destruct (valid && is_data_fresh (sensor_timestamp m) _ _); reflexivity.
Qed.

Lemma aggregator_cycle_uptime_msg (clk : aggregator_clock) (s : system)
    (l : aggregator_locals) :
  uptime_msg (aggregator_cycle clk s l).1.2 = current_uptime s l.
Proof.
  unfold aggregator_cycle. rewrite drain_uptime_last, drain_sensor_spec.
  cbn. by repeat case_match.
Qed.

Lemma aggregator_cycle_last_frame_time (clk : aggregator_clock) (s : system)
    (l : aggregator_locals) :
  last_frame_time (aggregator_cycle clk s l).1.2 = t_frame clk.
Proof.
  unfold aggregator_cycle. rewrite drain_sensor_spec. cbn. by repeat case_match.
Qed.

(** ** The conditions of a cycle, as propositions *)

Lemma is_data_fresh_true (data_timestamp current_time timeout_ms : Z) :
  is_data_fresh data_timestamp current_time timeout_ms = true <->
  current_time - data_timestamp <= timeout_ms.
Proof. unfold is_data_fresh. apply Z.leb_le. Qed.

Lemma is_data_fresh_false (data_timestamp current_time timeout_ms : Z) :
  is_data_fresh data_timestamp current_time timeout_ms = false <->
  timeout_ms < current_time - data_timestamp.
Proof. unfold is_data_fresh. apply Z.leb_gt. Qed.

Lemma deadline_met_true (current_frame_time last_time : Z) :
  deadline_met current_frame_time last_time = true <->
  current_frame_time - last_time <= 210.
Proof.
  unfold deadline_met, TELEMETRY_FRAME_RATE_MS.
  rewrite negb_true_iff, Z.ltb_ge. lia.
Qed.

Lemma deadline_met_false (current_frame_time last_time : Z) :
  deadline_met current_frame_time last_time = false <->
  210 < current_frame_time - last_time.
Proof.
  unfold deadline_met, TELEMETRY_FRAME_RATE_MS.
  rewrite negb_false_iff, Z.ltb_lt. lia.
Qed.

Lemma uptime_fresh_b_false (clk : aggregator_clock) (s : system) (l : aggregator_locals) :
  uptime_fresh_b clk s l = false <-> uptime_stale clk s l.
Proof. unfold uptime_fresh_b, uptime_stale. apply is_data_fresh_false. Qed.

Lemma sensor_fresh_b_true (clk : aggregator_clock) (s : system) :
  sensor_fresh_b clk s = true <-> sensor_fresh clk s.
Proof.
  unfold sensor_fresh_b, sensor_fresh.
  destruct (last_drained (msgs (sensor_msgq s))) as [m|].
  - rewrite is_data_fresh_true. split; [by exists m|].
    intros (m' & [= <-] & Hage). exact Hage.
  - split; [done|]. by intros (m' & ? & _).
Qed.

Lemma sensor_fresh_b_false (clk : aggregator_clock) (s : system) :
  sensor_fresh_b clk s = false <-> ~ sensor_fresh clk s.
Proof. rewrite <- sensor_fresh_b_true. by destruct (sensor_fresh_b clk s). Qed.

Lemma degraded_cycle (clk : aggregator_clock) (s : system) (l : aggregator_locals) :
  degraded (cycle_frame clk s l) = true <->
  uptime_stale clk s l \/ ~ sensor_fresh clk s \/ deadline_missed clk l.
Proof.
  rewrite cycle_frame_eq. cbn [degraded].
  rewrite !orb_true_iff, !negb_true_iff.
  rewrite uptime_fresh_b_false, sensor_fresh_b_false, deadline_met_false.
  unfold deadline_missed. tauto.
Qed.

(** ** Unsigned 32-bit arithmetic and kernel calls *)

Lemma to_uint32_succ (n : Z) : to_uint32 (to_uint32 n + 1) = to_uint32 (n + 1).
Proof. unfold to_uint32. by rewrite Zplus_mod_idemp_l. Qed.

Lemma to_uint32_small (n : Z) : 0 <= n < 2 ^ 32 -> to_uint32 n = n.
Proof. unfold to_uint32. apply Z.mod_small. Qed.

(** [k_msgq_put] with [K_NO_WAIT] always returns; on a full queue it returns
    a non-zero code and leaves the queue as it is. *)
Lemma k_msgq_put_no_wait {A} (q : k_msgq A) (data : A) :
  k_msgq_put q data K_NO_WAIT =
  Returns (if k_msgq_full q then (- ENOMSG, q)
           else (0, Build_k_msgq (max_msgs q) (msgs q ++ [data]))).
Proof. unfold k_msgq_put. by destruct (k_msgq_full q). Qed.

(** ** Steps of the whole program *)

Lemma step_aggregator (w : world) (clk : aggregator_clock) :
  step w (AggregatorRuns clk) =
  {| sys := (aggregator_cycle clk (sys w) (agg w)).1.1;
     agg := (aggregator_cycle clk (sys w) (agg w)).1.2;
     prod := prod w;
     last_status_time := last_status_time w |}.
Proof.
  cbn [step]. by destruct (aggregator_cycle clk (sys w) (agg w)) as [[s l] f].
Qed.

(** Only the aggregator's own iteration changes its locals. *)
Lemma step_agg (w : world) (ev : event) :
  (forall clk, ev <> AggregatorRuns clk) -> agg (step w ev) = agg w.
Proof.
  intros Hev. destruct ev as [| |inp|clk|now|cfg r1 r2]; cbn.
  - by destruct (synthetic_sensor_work_handler (sys w)).
  - by destruct (uptime_work_handler (sys w)).
  - by destruct (producer_iteration inp (sys w) (prod w)) as [[s p]|].
  - by destruct (Hev clk).
  - by destruct (main_iteration now (sys w) (last_status_time w)).
  - done.
Qed.

(** The events of the other tasks leave the aggregator's locals alone. *)
Lemma run_agg (w : world) (evs : list event) :
  forallb (fun ev => negb (is_aggregator_event ev)) evs = true ->
  agg (run w evs) = agg w.
Proof.
  revert w. induction evs as [|ev rest IH]; intros w Hevs; [done|].
  cbn [forallb] in Hevs. apply andb_true_iff in Hevs as [Hev Hrest].
  unfold run. cbn [foldl]. fold (run (step w ev) rest).
  rewrite (IH _ Hrest). apply step_agg.
  intros clk ->. discriminate Hev.
Qed.

(** What the events of the other tasks do to the frame counter and to the
    frames on the console: nothing. *)
Lemma synthetic_sensor_work_handler_frame (s : system) :
  exists s', synthetic_sensor_work_handler s = Returns s' /\
             frame_counter s' = frame_counter s /\ console s' = console s.
Proof.
  unfold synthetic_sensor_work_handler. unfold_kernel.
  destruct (k_msgq_full (trigger_msgq s)); cbn; eauto.
Qed.

Lemma uptime_work_handler_frame (s : system) :
  exists s', uptime_work_handler s = Returns s' /\
             frame_counter s' = frame_counter s /\ console s' = console s.
Proof.
  unfold uptime_work_handler. unfold_kernel.
  destruct (k_msgq_full (trigger_msgq s)); cbn; eauto.
Qed.

Lemma producer_iteration_frame (inp : producer_input) (s s' : system)
    (p p' : producer_locals) :
  producer_iteration inp s p = Returns (s', p') ->
  frame_counter s' = frame_counter s /\ console s' = console s.
Proof.
  unfold producer_iteration. unfold_kernel.
  destruct (msgs (trigger_msgq s)) as [|tid rest]; [done|]. cbn.
  repeat case_match; intros [= <- <-]; done.
Qed.

Lemma frames_of_app (l1 l2 : list console_line) :
  frames_of (l1 ++ l2) = frames_of l1 ++ frames_of l2.
Proof. unfold frames_of. apply omap_app. Qed.

Lemma step_other_frames (w : world) (ev : event) :
  is_aggregator_event ev = false ->
  frame_counter (sys (step w ev)) = frame_counter (sys w) /\
  emitted_frames (step w ev) = emitted_frames w.
Proof.
  intros Hev. unfold emitted_frames.
  destruct ev as [| |inp|clk|now|cfg r1 r2]; cbn [step]; try done.
  - destruct (synthetic_sensor_work_handler_frame (sys w)) as (s' & -> & Hc & Hl).
    cbn. by rewrite Hc, Hl.
  - destruct (uptime_work_handler_frame (sys w)) as (s' & -> & Hc & Hl).
    cbn. by rewrite Hc, Hl.
  - destruct (producer_iteration inp (sys w) (prod w)) as [[s' p']|] eqn:Hp; [|done].
    apply producer_iteration_frame in Hp as [Hc Hl]. cbn. by rewrite Hc, Hl.
  - unfold main_iteration.
    destruct (10000 <=? now - last_status_time w); cbn; [|done].
    split; [done|]. rewrite frames_of_app. cbn. by rewrite app_nil_r.
Qed.

Lemma step_aggregator_frames (w : world) (clk : aggregator_clock) :
  frame_counter (sys (step w (AggregatorRuns clk))) =
    to_uint32 (frame_counter (sys w) + 1) /\
  emitted_frames (step w (AggregatorRuns clk)) =
    emitted_frames w ++ [cycle_frame clk (sys w) (agg w)].
Proof.
  rewrite step_aggregator. unfold emitted_frames. cbn [sys].
  rewrite aggregator_cycle_sys. cbn [frame_counter console].
  by rewrite frames_of_app.
Qed.

(** ** The aggregator's locals along a run *)

Lemma default_last_app {A} (d : A) (l1 l2 : list A) :
  default d (last (l1 ++ l2)) = default (default d (last l1)) (last l2).
Proof.
  destruct l2 as [|x l2 _] using rev_ind.
  - by rewrite app_nil_r.
  - by rewrite app_assoc, !last_snoc.
Qed.

(** [uptime_msg] holds the last uptime sample drained so far, or what it held
    at the start if none was drained. *)
Lemma run_uptime_msg (w : world) (evs : list event) :
  uptime_msg (agg (run w evs)) =
  default (uptime_msg (agg w)) (last (drained_uptime_samples w evs)).
Proof.
  revert w. induction evs as [|ev rest IH]; intros w; [done|].
  unfold run. cbn [foldl drained_uptime_samples]. fold (run (step w ev) rest).
  rewrite IH, default_last_app. f_equal.
  destruct (is_aggregator_event ev) eqn:Hev.
  - destruct ev as [| |inp|clk|now|cfg r1 r2]; try done.
    rewrite step_aggregator. cbn [agg]. apply aggregator_cycle_uptime_msg.
  - rewrite step_agg by (by intros clk ->). by destruct ev.
Qed.

(** The sample the uptime check of the next cycle looks at is the current
    uptime sample if there is one, else the content of the stack slot. *)
Lemma current_uptime_latest (w : world) (evs : list event) :
  current_uptime (sys (run w evs)) (agg (run w evs)) =
  default (uptime_msg (agg w)) (latest_uptime_sample w evs).
Proof.
  unfold current_uptime, latest_uptime_sample, last_drained.
  by rewrite default_last_app, run_uptime_msg.
Qed.

(** [last_frame_time] is the timestamp of the last frame emitted, or the time
    the loop was entered. *)
Lemma run_last_frame_time (t_start : Z) (w : world) (evs : list event) :
  last_frame_time (agg w) = deadline_reference t_start w ->
  last_frame_time (agg (run w evs)) = deadline_reference t_start (run w evs).
Proof.
  revert w. induction evs as [|ev rest IH]; intros w Hw; [done|].
  unfold run. cbn [foldl]. apply IH. unfold deadline_reference in *.
  destruct (is_aggregator_event ev) eqn:Hev.
  - destruct ev as [| |inp|clk|now|cfg r1 r2]; try done.
    destruct (step_aggregator_frames w clk) as [_ ->].
    rewrite last_snoc, step_aggregator. cbn [agg fmap option_fmap option_map default].
    by rewrite aggregator_cycle_last_frame_time, cycle_frame_eq.
  - destruct (step_other_frames w ev Hev) as [_ ->].
    by rewrite step_agg by (by intros clk ->).
Qed.

(** Once an uptime sample has reached the aggregator, the frame of a cycle is
    degraded exactly when the current uptime sample is older than 2010 ms, or
    no sensor sample was drained or the last one is older than 60 ms, or the
    wake came more than 210 ms after the reference of the deadline check. *)
Lemma degraded_with_uptime_sample
    (t_boot t_start : Z) (uptime_slot : uptime_data) (sensor_slot : sensor_data)
    (trigger_slot : Z) (evs : list event) (clk : aggregator_clock) (m : uptime_data) :
  let w0 := world_init t_boot t_start uptime_slot sensor_slot trigger_slot in
  let w := run w0 evs in
  latest_uptime_sample w0 evs = Some m ->
  degraded (cycle_frame clk (sys w) (agg w)) = true <->
  2010 < t_frame clk - uptime_timestamp m \/
  ~ sensor_fresh clk (sys w) \/
  210 < t_wake clk - deadline_reference t_start w.
Proof.
  intros w0 w Hlatest. rewrite degraded_cycle.
  unfold uptime_stale, deadline_missed, w.
  rewrite current_uptime_latest, Hlatest.
  by rewrite (run_last_frame_time t_start w0 evs eq_refl).
Qed.

(** ** C1: the degraded flag *)

(** C1, at the failing input.  Before the first cycle after boot no uptime
    sample has reached the aggregator: the uptime input is not fresh.  The
    sensor sample of 150 ms is fresh at 200 ms and the deadline is met.  With
    a zeroed stack slot under [uptime_msg] the frame is nevertheless not
    degraded: the uptime check passed on the uninitialised variable. *)
Theorem C1_first_frame_not_degraded_without_uptime_sample :
  let w0 := cold_boot zeroed_slot in
  let w := run w0 before_first_cycle in
  let clk := clock_at 200 in
  latest_uptime_sample w0 before_first_cycle = None /\
  ~ uptime_sample_fresh clk w0 before_first_cycle /\
  sensor_fresh clk (sys w) /\
  t_wake clk - deadline_reference 0 w <= 210 /\
  degraded (cycle_frame clk (sys w) (agg w)) = false.
Proof.
  intros w0 w clk.
  assert (latest_uptime_sample w0 before_first_cycle = None) as Hnone by reflexivity.
  split; [exact Hnone|]. split; [|split; [|split]].
  - intros (m & Hm & _). by rewrite Hnone in Hm.
  - apply sensor_fresh_b_true. reflexivity.
  - by vm_compute.
  - reflexivity.
Qed.

(** ** C2: the sensor field *)

(** C2.  If the sensor queue held a sample at the drain and the last one
    drained is at most 60 ms old at the frame's timestamp, the frame carries
    its value; otherwise the frame carries -1 and is degraded. *)
Theorem C2_latest_sensor_value (clk : aggregator_clock) (s : system)
    (l : aggregator_locals) :
  (forall m, last_drained (msgs (sensor_msgq s)) = Some m ->
             t_frame clk - sensor_timestamp m <= 60 ->
             latest_sensor_value (cycle_frame clk s l) = sensor_value m) /\
  (~ sensor_fresh clk s ->
   latest_sensor_value (cycle_frame clk s l) = -1 /\
   degraded (cycle_frame clk s l) = true).
Proof.
  split.
  - intros m Hlast Hage. rewrite cycle_frame_eq. cbn [latest_sensor_value].
    rewrite Hlast. by apply is_data_fresh_true in Hage as ->.
  - intros Hstale. split; [|apply degraded_cycle; tauto].
    apply sensor_fresh_b_false in Hstale.
    rewrite cycle_frame_eq. cbn [latest_sensor_value].
    unfold sensor_fresh_b in Hstale.
    destruct (last_drained (msgs (sensor_msgq s))) as [m|]; [|done].
    by rewrite Hstale.
Qed.

(** ** C3: the uptime field *)

(** The uptime branch of a cycle, in terms of the sample the check looks at
    ([current_uptime]): used as it is when at most 2010 ms old, else the
    fallback and a degraded frame. *)
Lemma uptime_field_cycle (clk : aggregator_clock) (s : system) (l : aggregator_locals) :
  (~ uptime_stale clk s l ->
   uptime (cycle_frame clk s l) = uptime_seconds (current_uptime s l)) /\
  (uptime_stale clk s l ->
   uptime (cycle_frame clk s l) = uptime_fallback clk s /\
   degraded (cycle_frame clk s l) = true).
Proof.
  split.
  - intros Hfresh. rewrite cycle_frame_eq. cbn [uptime].
    destruct (uptime_fresh_b clk s l) eqn:Hb; [done|].
    by apply uptime_fresh_b_false in Hb.
  - intros Hstale. split; [|apply degraded_cycle; tauto].
    rewrite cycle_frame_eq. cbn [uptime].
    by apply uptime_fresh_b_false in Hstale as ->.
Qed.

(** When the cycle drains an uptime sample, the check looks at the last one
    drained. *)
Lemma current_uptime_drained (s : system) (l : aggregator_locals) (m : uptime_data) :
  last_drained (msgs (uptime_msgq s)) = Some m -> current_uptime s l = m.
Proof. unfold current_uptime. by intros ->. Qed.

(** When it drains none, the check looks at what [uptime_msg] held. *)
Lemma current_uptime_kept (s : system) (l : aggregator_locals) :
  msgs (uptime_msgq s) = [] -> current_uptime s l = uptime_msg l.
Proof. unfold current_uptime. by intros ->. Qed.

(** C3, at the failing input.  On the first cycle after boot no uptime
    sample exists yet, so the specification asks for the fallback
    [(200 - 0) / 1000 = 0] and a degraded frame.  The code reads the
    uninitialised [uptime_msg]: with a leftover [{100, 777}] in its stack
    slot the frame carries uptime 777 and is not degraded; with a zeroed slot
    the frame is not degraded either. *)
Theorem C3_first_frame_reads_uninitialised_uptime :
  emitted_frames (run (cold_boot leftover_slot) first_cycle_trace) =
    [ {| frame_id := 1; timestamp := 200; uptime := 777;
         latest_sensor_value := 56; sensor_avg_last_200ms := 53;
         degraded := false |} ] /\
  emitted_frames (run (cold_boot zeroed_slot) first_cycle_trace) =
    [ {| frame_id := 1; timestamp := 200; uptime := 0;
         latest_sensor_value := 56; sensor_avg_last_200ms := 53;
         degraded := false |} ] /\
  msgs (uptime_msgq (sys (run (cold_boot leftover_slot) before_first_cycle))) = [] /\
  uptime_fallback {| t_wake := 200; t_frame := 200; t_avg := 200 |}
    (sys (run (cold_boot leftover_slot) before_first_cycle)) = 0.
Proof. repeat split; vm_compute; reflexivity. Qed.

(** ** C4: the windowed average *)

Lemma sum_list_app (l1 l2 : list Z) : sum_list (l1 ++ l2) = sum_list l1 + sum_list l2.
Proof.
  unfold sum_list. induction l1 as [|x l1 IH]; cbn; [done|]. rewrite IH. lia.
Qed.

Lemma array_get_lookup (a : list Z) (i : nat) (x : Z) :
  a !! i = Some x -> array_get a (Z.of_nat i) = x.
Proof. unfold array_get. rewrite Nat2Z.id. by intros ->. Qed.

(** The loop after [n] iterations has summed and counted the entries of the
    first [n] slots that pass the cutoff. *)
Lemma avg_loop_prefix (buffer : sensor_avg_buffer) (cutoff_time : Z) (n : nat) :
  (n <= length (timestamps buffer))%nat ->
  (n <= length (sensor_values buffer))%nat ->
  foldl (avg_loop_body buffer cutoff_time) (0, 0) (seq 0 n) =
  let window := filter (fun e => cutoff_time <= e.1)
                  (take n (zip (timestamps buffer) (sensor_values buffer))) in
  (sum_list (window.*2), Z.of_nat (length window)).
Proof.
  induction n as [|n IH]; intros Hts Hvs; [done|].
  rewrite seq_S, foldl_app, IH by lia. cbn [foldl Nat.add].
  destruct (lookup_lt_is_Some_2 (timestamps buffer) n) as [t Ht]; [lia|].
  destruct (lookup_lt_is_Some_2 (sensor_values buffer) n) as [v Hv]; [lia|].
  assert (zip (timestamps buffer) (sensor_values buffer) !! n = Some (t, v)) as Hzip.
  { apply lookup_zip_with_Some. by exists t, v. }
  rewrite (take_S_r _ _ _ Hzip), filter_app.
  unfold avg_loop_body.
  rewrite (array_get_lookup _ _ _ Ht), (array_get_lookup _ _ _ Hv). cbn [fst snd].
  destruct (cutoff_time <=? t) eqn:Hcut.
  - apply Z.leb_le in Hcut.
    rewrite filter_cons_True, filter_nil by done.
    rewrite fmap_app, sum_list_app, length_app. cbn. f_equal; lia.
  - apply Z.leb_gt in Hcut.
    rewrite filter_cons_False, filter_nil by (cbn; lia).
    by rewrite app_nil_r.
Qed.

Lemma avg_loop_window (buffer : sensor_avg_buffer) (now : Z) :
  buffer_wf buffer ->
  avg_loop buffer (now - 200) =
  (sum_list ((in_window now (ring_entries buffer)).*2),
   Z.of_nat (length (in_window now (ring_entries buffer)))).
Proof.
  intros [Hvs Hts _ Hcount]. unfold avg_loop, in_window, ring_entries.
  unfold SENSOR_AVG_BUFFER_SIZE in *.
  by rewrite avg_loop_prefix by lia.
Qed.

(** The returned value in terms of the window. *)
Lemma calculate_sensor_avg_200ms_window (buffer : sensor_avg_buffer) (now : Z) :
  buffer_wf buffer ->
  calculate_sensor_avg_200ms buffer now =
  match in_window now (ring_entries buffer) with
  | [] => 0
  | window => to_uint32 (Z.quot (sum_list (window.*2)) (Z.of_nat (length window)))
  end.
Proof.
  intros Hwf. unfold calculate_sensor_avg_200ms. rewrite avg_loop_window by done.
  by destruct (in_window now (ring_entries buffer)).
Qed.

Lemma sum_list_bounds (l : list Z) :
  Forall value_in_range l -> 0 <= sum_list l <= 100 * Z.of_nat (length l).
Proof.
  unfold sum_list, value_in_range.
  induction 1 as [|x l Hx _ IH]; cbn [foldr length]; lia.
Qed.

Lemma in_window_values (now : Z) (entries : list (Z * Z)) :
  Forall value_in_range (entries.*2) ->
  Forall value_in_range ((in_window now entries).*2).
Proof.
  unfold in_window. rewrite !Forall_fmap. intros Hall.
  apply Forall_forall. intros e He%list_elem_of_filter.
  rewrite Forall_forall in Hall. apply Hall, He.
Qed.

(** C4.  For a buffer as the program maintains it (both arrays of 20 slots,
    [count] between 0 and 20) whose stored values are sensor values (0 to
    100): the value read at time [now] is the mean, as an integer rounded
    down, of the values of the ring entries with timestamp at least
    [now - 200]; it lies in [0, 100] when some entry qualifies and is 0 when
    none does, however many older entries the ring holds. *)
Theorem C4_windowed_average (buffer : sensor_avg_buffer) (now : Z) :
  buffer_wf buffer ->
  Forall value_in_range ((ring_entries buffer).*2) ->
  let window := in_window now (ring_entries buffer) in
  let avg := calculate_sensor_avg_200ms buffer now in
  avg = mean (window.*2) /\
  (window <> [] ->
   0 <= avg <= 100 /\
   Z.of_nat (length window) * avg <= sum_list (window.*2)
     < Z.of_nat (length window) * (avg + 1)) /\
  (window = [] -> avg = 0).
Proof.
  intros Hwf Hrange window avg.
  pose proof (calculate_sensor_avg_200ms_window buffer now Hwf) as Havg.
  fold window avg in Havg.
  pose proof (sum_list_bounds _ (in_window_values now _ Hrange)) as Hsum.
  fold window in Hsum. rewrite length_fmap in Hsum.
  destruct window as [|e window'] eqn:Hw; [by rewrite Havg|].
  cbv zeta in Havg.
  set (n := Z.of_nat (length (e :: window'))) in *.
  set (total := sum_list ((e :: window').*2)) in *.
  assert (0 < n) as Hn by (unfold n; cbn [length]; lia).
  assert (Z.quot total n = total / n) as Hquot by (apply Z.quot_div_nonneg; lia).
  assert (0 <= total / n <= 100) as Hdiv.
  { split; [apply Z.div_pos; lia|].
    apply Z.div_le_upper_bound; lia. }
  assert (avg = total / n) as Havg'.
  { rewrite Havg, Hquot. apply to_uint32_small. lia. }
  split; [|split; [|done]].
  - rewrite Havg', <- Hquot. unfold mean, total, n.
    change ((e :: window').*2) with (e.2 :: window'.*2).
    cbn [length]. by rewrite length_fmap.
  - intros _. split; [lia|]. rewrite Havg'.
    pose proof (Z.mul_div_le total n Hn).
    pose proof (Z.mul_succ_div_gt total n Hn). lia.
Qed.

(** The scenario's buffer read at 200 ms: all four entries qualify and the
    mean is 43. *)
Lemma C4_witness_scenario_buffer :
  let window := in_window 200 (ring_entries scenario_buffer) in
  window = [(0, 40); (50, 42); (100, 44); (150, 46)] /\
  calculate_sensor_avg_200ms scenario_buffer 200 = mean (window.*2) /\
  mean (window.*2) = 43.
Proof.
  assert (buffer_wf scenario_buffer) as Hwf.
  { split; vm_compute; try reflexivity; split; easy. }
  assert (Forall value_in_range ((ring_entries scenario_buffer).*2)) as Hrange.
  { vm_compute. repeat constructor; easy. }
  destruct (C4_windowed_average scenario_buffer 200 Hwf Hrange) as (Hmean & _ & _).
  split; [reflexivity|]. split; [exact Hmean|reflexivity].
Defined.

(** *** The buffer invariant along a run *)

Lemma avg_buffer_init_wf : buffer_wf avg_buffer_init.
Proof. split; cbn; try reflexivity; unfold SENSOR_AVG_BUFFER_SIZE; lia. Qed.

Lemma add_sensor_to_avg_buffer_wf (buffer : sensor_avg_buffer) (data : sensor_data) :
  buffer_wf buffer -> buffer_wf (add_sensor_to_avg_buffer buffer data).
Proof.
  intros [Hvs Hts Hindex Hcount]. unfold SENSOR_AVG_BUFFER_SIZE in *.
  split; cbn; unfold array_set, SENSOR_AVG_BUFFER_SIZE.
  - by rewrite length_insert.
  - by rewrite length_insert.
  - apply Z.rem_bound_pos; lia.
  - destruct (count buffer <? 20) eqn:Hlt; [apply Z.ltb_lt in Hlt|]; lia.
Qed.

Lemma add_sensor_to_avg_buffer_values (buffer : sensor_avg_buffer) (data : sensor_data) :
  value_in_range (sensor_value data) ->
  buffer_values_in_range buffer ->
  buffer_values_in_range (add_sensor_to_avg_buffer buffer data).
Proof.
  unfold buffer_values_in_range. cbn. unfold array_set. intros Hv Hall.
  apply Forall_forall. intros x Hx.
  apply list_elem_of_lookup in Hx as [i Hi].
  destruct (decide (i = Z.to_nat (index buffer))) as [->|Hne].
  - destruct (decide (Z.to_nat (index buffer) < length (sensor_values buffer))%nat).
    + rewrite list_lookup_insert_eq in Hi by done. by injection Hi as <-.
    + rewrite list_insert_ge in Hi by lia.
      eapply Forall_lookup_1; eauto.
  - rewrite list_lookup_insert_ne in Hi by done.
    eapply Forall_lookup_1; eauto.
Qed.

Lemma drain_preserves_buffer (pending : list sensor_data) (buffer : sensor_avg_buffer) :
  Forall (fun m => value_in_range (sensor_value m)) pending ->
  buffer_values_in_range buffer -> buffer_wf buffer ->
  buffer_values_in_range (foldl add_sensor_to_avg_buffer buffer pending) /\
  buffer_wf (foldl add_sensor_to_avg_buffer buffer pending).
Proof.
  intros Hpending. revert buffer.
  induction Hpending as [|m rest Hm _ IH]; intros buffer Hvalues Hwf; [done|].
  cbn [foldl]. apply IH.
  - by apply add_sensor_to_avg_buffer_values.
  - by apply add_sensor_to_avg_buffer_wf.
Qed.

Lemma ring_entries_values (buffer : sensor_avg_buffer) :
  buffer_values_in_range buffer ->
  Forall value_in_range ((ring_entries buffer).*2).
Proof.
  unfold buffer_values_in_range, ring_entries. intros Hall.
  rewrite Forall_fmap. apply Forall_forall. intros [t v] He.
  apply list_elem_of_lookup in He as [i Hi].
  apply lookup_take_Some in Hi as [Hi _].
  apply lookup_zip_with_Some in Hi as (t' & v' & [= <- <-] & _ & Hv).
  cbn. eapply Forall_lookup_1; eauto.
Qed.

(** The producer clamps what it publishes. *)
Lemma synthetic_sensor_data_in_range (now sine rand : Z) :
  value_in_range (sensor_value (synthetic_sensor_data now sine rand)).
Proof.
  unfold synthetic_sensor_data, value_in_range. cbn [sensor_value].
  repeat case_match; lia.
Qed.

Lemma calculate_sensor_avg_200ms_range (buffer : sensor_avg_buffer) (now : Z) :
  buffer_wf buffer -> buffer_values_in_range buffer ->
  0 <= calculate_sensor_avg_200ms buffer now <= 100.
Proof.
  intros Hwf Hvalues. rewrite calculate_sensor_avg_200ms_window by done.
  pose proof (sum_list_bounds _
                (in_window_values now _ (ring_entries_values _ Hvalues))) as Hsum.
  rewrite length_fmap in Hsum.
  destruct (in_window now (ring_entries buffer)) as [|e window]; [lia|].
  cbv zeta.
  set (n := Z.of_nat (length (e :: window))) in *.
  set (total := sum_list ((e :: window).*2)) in *.
  assert (0 < n) as Hn by (unfold n; cbn [length]; lia).
  rewrite Z.quot_div_nonneg by lia.
  assert (0 <= total / n <= 100) as Hdiv.
  { split; [apply Z.div_pos; lia|]. apply Z.div_le_upper_bound; lia. }
  rewrite to_uint32_small; lia.
Qed.

Lemma world_init_inv (t_boot t_start : Z) (uptime_slot : uptime_data)
    (sensor_slot : sensor_data) (trigger_slot : Z) :
  world_inv (world_init t_boot t_start uptime_slot sensor_slot trigger_slot).
Proof.
  split; cbn.
  - constructor.
  - unfold buffer_values_in_range. cbn. by apply Forall_replicate.
  - apply avg_buffer_init_wf.
Qed.

Lemma synthetic_sensor_work_handler_sensor_msgq (s : system) :
  exists s', synthetic_sensor_work_handler s = Returns s' /\
             sensor_msgq s' = sensor_msgq s.
Proof.
  unfold synthetic_sensor_work_handler. unfold_kernel.
  destruct (k_msgq_full (trigger_msgq s)); cbn; eauto.
Qed.

Lemma uptime_work_handler_sensor_msgq (s : system) :
  exists s', uptime_work_handler s = Returns s' /\ sensor_msgq s' = sensor_msgq s.
Proof.
  unfold uptime_work_handler. unfold_kernel.
  destruct (k_msgq_full (trigger_msgq s)); cbn; eauto.
Qed.

(** The producer leaves the sensor queue as it is or appends one clamped
    sample. *)
Lemma producer_iteration_sensor_msgq (inp : producer_input) (s s' : system)
    (p p' : producer_locals) :
  producer_iteration inp s p = Returns (s', p') ->
  msgs (sensor_msgq s') = msgs (sensor_msgq s) \/
  msgs (sensor_msgq s') =
    msgs (sensor_msgq s) ++ [synthetic_sensor_data (p_now inp) (p_sine inp) (p_rand inp)].
Proof.
  unfold producer_iteration. unfold_kernel.
  destruct (msgs (trigger_msgq s)) as [|tid rest]; [done|]. cbn.
  repeat case_match; intros [= <- <-]; cbn; simplify_eq; cbn; auto.
Qed.

Lemma step_inv (w : world) (ev : event) : world_inv w -> world_inv (step w ev).
Proof.
  intros [Hq Hv Hwf].
  destruct ev as [| |inp|clk|now|cfg r1 r2];
    [cbn [step]|cbn [step]|cbn [step]| |cbn [step]|cbn [step]].
  - destruct (synthetic_sensor_work_handler_sensor_msgq (sys w)) as (s' & -> & Hs).
    split; cbn; [by rewrite Hs|done|done].
  - destruct (uptime_work_handler_sensor_msgq (sys w)) as (s' & -> & Hs).
    split; cbn; [by rewrite Hs|done|done].
  - destruct (producer_iteration inp (sys w) (prod w)) as [[s' p']|] eqn:Hp; [|done].
    split; cbn; [|done|done].
    apply producer_iteration_sensor_msgq in Hp as [->| ->]; [done|].
    apply Forall_app. split; [done|].
    constructor; [apply synthetic_sensor_data_in_range|constructor].
  - rewrite step_aggregator.
    destruct (drain_preserves_buffer _ _ Hq Hv Hwf) as [Hv' Hwf'].
    assert (avg_buffer (aggregator_cycle clk (sys w) (agg w)).1.2 =
            foldl add_sensor_to_avg_buffer (avg_buffer (agg w))
              (msgs (sensor_msgq (sys w)))) as Hbuf.
    { unfold aggregator_cycle. rewrite drain_sensor_spec. cbn. by repeat case_match. }
    split; cbn [sys agg]; rewrite ?aggregator_cycle_sys, ?Hbuf; cbn; try done.
  - unfold main_iteration.
    destruct (10000 <=? now - last_status_time w); by split.
  - by split.
Qed.

Lemma run_inv (w : world) (evs : list event) : world_inv w -> world_inv (run w evs).
Proof.
  revert w. induction evs as [|ev rest IH]; intros w Hw; [done|].
  unfold run. cbn [foldl]. apply IH. by apply step_inv.
Qed.

(** In any run from boot every frame carries an average between 0 and 100. *)
Lemma emitted_averages_in_range (w : world) (evs : list event) :
  world_inv w ->
  Forall (fun f => 0 <= sensor_avg_last_200ms f <= 100) (emitted_frames w) ->
  Forall (fun f => 0 <= sensor_avg_last_200ms f <= 100) (emitted_frames (run w evs)).
Proof.
  revert w. induction evs as [|ev rest IH]; intros w Hw Hframes; [done|].
  unfold run. cbn [foldl]. apply IH; [by apply step_inv|].
  destruct (is_aggregator_event ev) eqn:Hev.
  - destruct ev as [| |inp|clk|now|cfg r1 r2]; try done.
    destruct (step_aggregator_frames w clk) as [_ ->].
    apply Forall_app. split; [done|]. constructor; [|constructor].
    rewrite cycle_frame_eq. cbn [sensor_avg_last_200ms].
    destruct Hw as [Hq Hv Hwf].
    destruct (drain_preserves_buffer _ _ Hq Hv Hwf) as [Hv' Hwf'].
    by apply calculate_sensor_avg_200ms_range.
  - by destruct (step_other_frames w ev Hev) as [_ ->].
Qed.

(** ** C5: frame identifiers *)

(** The state of the counter and of the console after any run from a world
    with counter zero and no frame emitted. *)
Lemma run_frames (w : world) (evs : list event) :
  frame_counter (sys w) = 0 -> emitted_frames w = [] ->
  frame_counter (sys (run w evs)) = to_uint32 (Z.of_nat (aggregator_cycles evs)) /\
  frame_id <$> emitted_frames (run w evs) =
    (fun k => to_uint32 (Z.of_nat k)) <$> seq 1 (aggregator_cycles evs).
Proof.
  intros Hc Hf. induction evs as [|ev evs IH] using rev_ind.
  - cbn. by rewrite Hc, Hf.
  - unfold run. rewrite foldl_app. cbn [foldl]. fold (run w evs).
    destruct IH as [IHc IHf].
    unfold aggregator_cycles. rewrite filter_app, length_app.
    fold (aggregator_cycles evs).
    destruct (is_aggregator_event ev) eqn:Hev.
    + destruct ev as [| |inp|clk|now|cfg r1 r2]; try done.
      destruct (step_aggregator_frames (run w evs) clk) as [-> ->].
      rewrite filter_cons_True, filter_nil by done. cbn [length].
      rewrite IHc, to_uint32_succ.
      replace (aggregator_cycles evs + 1)%nat with (S (aggregator_cycles evs)) by lia.
      split; [f_equal; lia|].
      rewrite fmap_app, IHf, seq_S, fmap_app. cbn.
      rewrite cycle_frame_eq. cbn [frame_id]. rewrite IHc, to_uint32_succ.
      do 3 f_equal. lia.
    + destruct (step_other_frames (run w evs) ev Hev) as [-> ->].
      rewrite filter_cons_False, filter_nil by (by rewrite Hev). cbn [length].
      by rewrite Nat.add_0_r.
Qed.

(** C5, as the code has it.  In any run from boot the aggregator emits one
    frame per cycle, and the n-th frame has identifier [n mod 2^32]: the
    identifiers are 1, 2, 3, ... without gap or repeat as long as fewer than
    [2^32] frames have been emitted. *)
Theorem C5_frame_ids_modulo (t_boot t_start : Z) (uptime_slot : uptime_data)
    (sensor_slot : sensor_data) (trigger_slot : Z) (evs : list event) :
  let w := run (world_init t_boot t_start uptime_slot sensor_slot trigger_slot) evs in
  length (emitted_frames w) = aggregator_cycles evs /\
  frame_id <$> emitted_frames w =
    (fun k => to_uint32 (Z.of_nat k)) <$> seq 1 (aggregator_cycles evs) /\
  (Z.of_nat (aggregator_cycles evs) < 2 ^ 32 ->
   frame_id <$> emitted_frames w = Z.of_nat <$> seq 1 (aggregator_cycles evs)).
Proof.
  intros w.
  destruct (run_frames (world_init t_boot t_start uptime_slot sensor_slot trigger_slot)
              evs eq_refl eq_refl) as [_ Hids].
  fold w in Hids.
  split; [|split; [exact Hids|]].
  - apply (f_equal length) in Hids. by rewrite !length_fmap, length_seq in Hids.
  - intros Hfew. rewrite Hids. apply list_fmap_ext.
    intros i k Hk. apply lookup_seq in Hk as [-> Hi].
    apply to_uint32_small. lia.
Qed.

Lemma aggregator_cycles_cycles (n : nat) : aggregator_cycles (cycles n) = n.
Proof.
  unfold cycles, aggregator_cycles.
  transitivity (length (seq 1 n)); [|apply length_seq].
  generalize (seq 1 n). intros ks.
  induction ks as [|k ks IH]; [done|].
  rewrite fmap_cons, filter_cons_True by done. cbn [length]. by rewrite IH.
Qed.

(** The last frame of a run of [n] cycles from boot. *)
Lemma cycles_last_frame (w : world) (n : nat) :
  frame_counter (sys w) = 0 -> emitted_frames w = [] -> (0 < n)%nat ->
  exists f, emitted_frames (run w (cycles n)) !! (n - 1)%nat = Some f /\
            frame_id f = to_uint32 (Z.of_nat n).
Proof.
  intros Hc Hf Hn.
  destruct (run_frames w (cycles n) Hc Hf) as [_ Hids].
  rewrite aggregator_cycles_cycles in Hids.
  assert ((frame_id <$> emitted_frames (run w (cycles n))) !! (n - 1)%nat =
          Some (to_uint32 (Z.of_nat n))) as Hlast.
  { rewrite Hids, list_lookup_fmap, lookup_seq_lt by lia. cbn.
    do 3 f_equal. lia. }
  rewrite list_lookup_fmap in Hlast.
  apply fmap_Some in Hlast as (f & Hf' & Hid). by exists f.
Qed.

(** C5, counterexample.  After [2^32] cycles from boot the frame emitted
    last, the [2^32]-th one, has identifier 0: the 32-bit counter has
    wrapped. *)
Lemma C5_counterexample_wraparound :
  exists f,
    emitted_frames (run (cold_boot zeroed_slot) (cycles (Z.to_nat (2 ^ 32))))
      !! (Z.to_nat (2 ^ 32) - 1)%nat = Some f /\
    frame_id f = 0 /\ frame_id f <> 2 ^ 32.
Proof.
  destruct (cycles_last_frame (cold_boot zeroed_slot) (Z.to_nat (2 ^ 32))
              eq_refl eq_refl) as (f & Hf & Hid); [lia|].
  exists f. split; [exact Hf|].
  rewrite Z2Nat.id in Hid by lia.
  unfold to_uint32 in Hid. rewrite Z_mod_same_full in Hid.
  rewrite Hid. split; [done|lia].
Qed.

(** ** C6: the deadline check *)

(** C6, counterexample.  The second wake of [slipped_wake_trace] comes 211 ms
    after the first one, with fresh inputs, yet the second frame is not
    degraded and no deadline warning is logged: the check measures from the
    first frame's timestamp, 1201 ms. *)
Lemma C6_counterexample_wake_to_wake :
  t_wake slipped_second - t_wake slipped_first = 211 /\
  degraded <$> emitted_frames (run running_world slipped_wake_trace) = [false; false] /\
  timestamp <$> emitted_frames (run running_world slipped_wake_trace) = [1201; 1411] /\
  log (sys (run running_world slipped_wake_trace)) = [].
Proof. repeat split; vm_compute; reflexivity. Qed.

(** C6, as the code has it.  For every cycle of every run from boot: the
    deadline check measures from the timestamp of the last frame emitted (on
    the first cycle, from the time the aggregator entered its loop), and
    [last_frame_time] holds exactly that.  A wake more than 210 ms after it
    makes the frame degraded and logs the overage beyond 200 ms.  A wake
    within 210 ms logs nothing, and with a fresh uptime sample and a fresh
    sensor sample the frame is not degraded, whatever happened in earlier
    cycles.  The frame's timestamp is the reference of the next cycle. *)
Theorem C6_deadline_from_previous_frame
    (t_boot t_start : Z) (uptime_slot : uptime_data) (sensor_slot : sensor_data)
    (trigger_slot : Z) (evs : list event) (clk : aggregator_clock) :
  let w0 := world_init t_boot t_start uptime_slot sensor_slot trigger_slot in
  let w := run w0 evs in
  let reference := deadline_reference t_start w in
  let f := cycle_frame clk (sys w) (agg w) in
  let w' := step w (AggregatorRuns clk) in
  last_frame_time (agg w) = reference /\
  deadline_met (t_wake clk) (last_frame_time (agg w)) =
    (t_wake clk - reference <=? 210) /\
  (210 < t_wake clk - reference ->
   degraded f = true /\
   log (sys w') =
     log (sys w) ++ [WRN_frame_deadline_missed (t_wake clk - reference - 200)]) /\
  (t_wake clk - reference <= 210 ->
   log (sys w') = log (sys w) /\
   (uptime_sample_fresh clk w0 evs -> sensor_fresh clk (sys w) ->
    degraded f = false)) /\
  deadline_reference t_start w' = timestamp f.
Proof.
  intros w0 w reference f w'.
  assert (last_frame_time (agg w) = reference) as Hlast
    by (by apply (run_last_frame_time t_start w0 evs)).
  assert (log (sys w') =
          if deadline_met (t_wake clk) reference then log (sys w)
          else log (sys w) ++
               [WRN_frame_deadline_missed (t_wake clk - reference - 200)]) as Hlog.
  { unfold w'. rewrite step_aggregator. cbn [sys].
    by rewrite aggregator_cycle_sys, Hlast. }
  split; [exact Hlast|]. split; [|split; [|split]].
  - rewrite Hlast.
    destruct (deadline_met (t_wake clk) reference) eqn:Hmet; symmetry.
    + apply Z.leb_le. by apply deadline_met_true.
    + apply Z.leb_gt. by apply deadline_met_false.
  - intros Hlate. split.
    + apply degraded_cycle. right. right. unfold deadline_missed. by rewrite Hlast.
    + rewrite Hlog. by apply deadline_met_false in Hlate as ->.
  - intros Hontime. split.
    + rewrite Hlog. by apply deadline_met_true in Hontime as ->.
    + intros (m & Hlatest & Hage) Hsensor. apply not_true_is_false.
      intros Hdegraded.
      apply (degraded_with_uptime_sample t_boot t_start uptime_slot sensor_slot
               trigger_slot evs clk m Hlatest) in Hdegraded.
      fold w0 w reference in Hdegraded.
      destruct Hdegraded as [?|[?|?]]; [lia|done|lia].
  - unfold deadline_reference, w'.
    destruct (step_aggregator_frames w clk) as [_ ->].
    by rewrite last_snoc.
Qed.

(** The sixth cycle wakes at 1215 ms, 215 ms after the frame of 1000 ms: its
    frame is degraded and the log gains "missed by 15 ms".  The next cycle
    wakes at 1400 ms, 185 ms after the frame of 1215 ms, with the uptime
    sample of 1000 ms and the sensor sample of 1350 ms: not degraded. *)
Lemma C6_witness_late_then_on_time :
  let late := run (cold_boot zeroed_slot) late_cycle_trace in
  let after := run (cold_boot zeroed_slot) recovered_trace in
  deadline_reference 0 late = 1000 /\
  degraded (cycle_frame (clock_at 1215) (sys late) (agg late)) = true /\
  log (sys (step late (AggregatorRuns (clock_at 1215)))) =
    log (sys late) ++ [WRN_frame_deadline_missed 15] /\
  deadline_reference 0 after = 1215 /\
  degraded (cycle_frame (clock_at 1400) (sys after) (agg after)) = false.
Proof.
  intros late after.
  destruct (C6_deadline_from_previous_frame 0 0 zeroed_slot any_sensor_slot 0
              late_cycle_trace (clock_at 1215)) as (_ & _ & Hlate & _ & _).
  destruct (C6_deadline_from_previous_frame 0 0 zeroed_slot any_sensor_slot 0
              recovered_trace (clock_at 1400)) as (_ & _ & _ & Hontime & _).
  destruct Hlate as [Hdegraded Hlog]; [by vm_compute|].
  destruct Hontime as [_ Hfresh]; [by vm_compute|].
  split; [reflexivity|]. split; [exact Hdegraded|]. split; [exact Hlog|].
  split; [reflexivity|].
  apply Hfresh.
  - exists {| uptime_timestamp := 1000; uptime_seconds := 1 |}.
    split; [reflexivity|]. cbn. lia.
  - apply sensor_fresh_b_true. reflexivity.
Defined.

(** ** C7: the scenario with samples 40, 42, 44, 46 *)



(** ** C8: publishing to a full queue *)

(** A work handler on a full trigger queue: the trigger is dropped, one
    warning is logged, the handler returns. *)
Lemma work_handlers_on_full_queue (s : system) :
  k_msgq_full (trigger_msgq s) = true ->
  synthetic_sensor_work_handler s =
    Returns (LOG_WRN (with_trigger_msgq s (trigger_msgq s)) WRN_sensor_trigger_queue_full) /\
  uptime_work_handler s =
    Returns (LOG_WRN (with_trigger_msgq s (trigger_msgq s)) WRN_uptime_trigger_queue_full).
Proof.
  intros Hfull. unfold synthetic_sensor_work_handler, uptime_work_handler.
  rewrite !k_msgq_put_no_wait, Hfull. by cbn.
Qed.

(** C8.  Once the producer has received a trigger, its iteration returns
    whatever the state of the data queues: the publish does not pend.  When
    the target queue is full, the iteration leaves both data queues as they
    were (the sample is gone), logs exactly one warning, and has consumed the
    trigger: the sample is not offered again. *)
Theorem C8_publish_on_full_queue (inp : producer_input) (s : system)
    (p : producer_locals) (tid : Z) (rest : list Z) :
  msgs (trigger_msgq s) = tid :: rest ->
  exists s' p',
    producer_iteration inp s p = Returns (s', p') /\
    msgs (trigger_msgq s') = rest /\
    (tid = TRIGGER_SYNTHETIC_SENSOR -> k_msgq_full (sensor_msgq s) = true ->
     sensor_msgq s' = sensor_msgq s /\ uptime_msgq s' = uptime_msgq s /\
     log s' = log s ++ [WRN_sensor_queue_full]) /\
    (tid = TRIGGER_UPTIME -> k_msgq_full (uptime_msgq s) = true ->
     sensor_msgq s' = sensor_msgq s /\ uptime_msgq s' = uptime_msgq s /\
     log s' = log s ++ [WRN_uptime_queue_full]).
Proof.
  intros Htrig. unfold producer_iteration.
  unfold k_msgq_get. rewrite Htrig. unfold mbind at 1, k_result_bind at 1.
  cbn [default from_option with_trigger_msgq trigger_msgq sensor_msgq uptime_msgq
       system_start_time]. unfold id.
  rewrite !k_msgq_put_no_wait. unfold mbind, k_result_bind.
  destruct (tid =? TRIGGER_SYNTHETIC_SENSOR) eqn:Hsensor;
    [|destruct (tid =? TRIGGER_UPTIME) eqn:Huptime].
  - apply Z.eqb_eq in Hsensor.
    destruct (k_msgq_full (sensor_msgq s)) eqn:Hfull;
      eexists _, _; (split; [reflexivity|]); cbn; (split; [done|]);
      split; intros Htid; try done; by rewrite Htid in Hsensor.
  - apply Z.eqb_eq in Huptime. apply Z.eqb_neq in Hsensor.
    destruct (k_msgq_full (uptime_msgq s)) eqn:Hfull;
      eexists _, _; (split; [reflexivity|]); cbn; (split; [done|]);
      split; intros Htid; done.
  - apply Z.eqb_neq in Hsensor, Huptime.
    eexists _, _. split; [reflexivity|]. cbn. by repeat split.
Qed.

(** The sensor trigger on the saturated system: the sample of 2050 ms is
    dropped with one warning; the uptime trigger is still waiting. *)
Lemma C8_witness_saturated :
  exists s' p',
    producer_iteration (producer_at 2050) saturated_system
      {| counter := 10; trigger_id := 0 |} = Returns (s', p') /\
    msgs (trigger_msgq s') = [TRIGGER_UPTIME] /\
    sensor_msgq s' = sensor_msgq saturated_system /\
    log s' = [WRN_sensor_queue_full].
Proof.
  destruct (C8_publish_on_full_queue (producer_at 2050) saturated_system
              {| counter := 10; trigger_id := 0 |}
              TRIGGER_SYNTHETIC_SENSOR [TRIGGER_UPTIME] eq_refl)
    as (s' & p' & Hret & Htrig & Hsensor & _).
  destruct (Hsensor eq_refl eq_refl) as (Hq & _ & Hlog).
  exists s', p'. repeat split; assumption.
Defined.

(** ** C9: who uses the average buffer and the frame counter *)

(** C9, counterexample.  The monitoring loop of [main] reads the frame
    counter: run at 10000 ms on two worlds that differ in the counter only
    (5 and 6), it prints two different status lines. *)
Lemma C9_counterexample_main_reads_counter :
  is_aggregator_event (MainRuns 10000) = false /\
  console (sys (step running_world (MainRuns 10000))) = [STATUS 5 10] /\
  console (sys (step (overwrite_frame_counter running_world 6) (MainRuns 10000)))
    = [STATUS 6 10] /\
  step (overwrite_frame_counter running_world 6) (MainRuns 10000) <>
  overwrite_frame_counter (step running_world (MainRuns 10000)) 6.
Proof. repeat split; try reflexivity. vm_compute. discriminate. Qed.

Lemma step_overwrite_avg_buffer (w : world) (ev : event) (b : sensor_avg_buffer) :
  is_aggregator_event ev = false ->
  step (overwrite_avg_buffer w b) ev = overwrite_avg_buffer (step w ev) b.
Proof.
  intros Hev. destruct ev as [| |inp|clk|now|cfg r1 r2]; try done; cbn.
  - by destruct (synthetic_sensor_work_handler (sys w)).
  - by destruct (uptime_work_handler (sys w)).
  - by destruct (producer_iteration inp (sys w) (prod w)) as [[s p]|].
  - by destruct (main_iteration now (sys w) (last_status_time w)).
Qed.

Lemma step_overwrite_frame_counter (w : world) (ev : event) (c : Z) :
  is_aggregator_event ev = false -> is_main_event ev = false ->
  step (overwrite_frame_counter w c) ev = overwrite_frame_counter (step w ev) c.
Proof.
  intros Hev Hmain. destruct ev as [| |inp|clk|now|cfg r1 r2]; try done;
    unfold overwrite_frame_counter; cbn.
  - unfold synthetic_sensor_work_handler. rewrite !k_msgq_put_no_wait. cbn.
    by destruct (k_msgq_full (trigger_msgq (sys w))).
  - unfold uptime_work_handler. rewrite !k_msgq_put_no_wait. cbn.
    by destruct (k_msgq_full (trigger_msgq (sys w))).
  - unfold producer_iteration, k_msgq_get. cbn.
    destruct (msgs (trigger_msgq (sys w))) as [|tid rest]; [done|].
    cbn. rewrite !k_msgq_put_no_wait. cbn.
    destruct (tid =? TRIGGER_SYNTHETIC_SENSOR); [|destruct (tid =? TRIGGER_UPTIME)];
      cbn; try done.
    + by destruct (k_msgq_full (sensor_msgq (sys w))).
    + by destruct (k_msgq_full (uptime_msgq (sys w))).
Qed.

(** C9, as the code has it.  An iteration of any task other than the
    aggregator never writes the frame counter, and neither reads nor writes
    the average buffer.  The producer, the work handlers and the load
    generator do not read the frame counter either; the monitoring loop of
    [main] does read it, for its status line. *)
Theorem C9_ownership (w : world) (ev : event) :
  is_aggregator_event ev = false ->
  frame_counter (sys (step w ev)) = frame_counter (sys w) /\
  (forall b, step (overwrite_avg_buffer w b) ev = overwrite_avg_buffer (step w ev) b) /\
  (is_main_event ev = false ->
   forall c, step (overwrite_frame_counter w c) ev =
             overwrite_frame_counter (step w ev) c) /\
  (forall now, ev = MainRuns now -> 10000 <= now - last_status_time w ->
   console (sys (step w ev)) =
     console (sys w) ++ [STATUS (frame_counter (sys w))
                           (Z.quot (now - system_start_time (sys w)) 1000)]).
Proof.
  intros Hev. repeat split.
  - by destruct (step_other_frames w ev Hev).
  - intros b. by apply step_overwrite_avg_buffer.
  - intros Hmain c. by apply step_overwrite_frame_counter.
  - intros now -> Hdue. cbn. unfold main_iteration.
    by apply Z.leb_le in Hdue as ->.
Qed.

(** The monitoring loop at 10000 ms on the running system: the counter stays
    5 and the status line shows it. *)
Lemma C9_witness_status_line :
  frame_counter (sys (step running_world (MainRuns 10000))) = 5 /\
  console (sys (step running_world (MainRuns 10000))) = [STATUS 5 10].
Proof.
  destruct (C9_ownership running_world (MainRuns 10000) eq_refl)
    as (Hcounter & _ & _ & Hstatus).
  split; [exact Hcounter|].
  apply (Hstatus 10000 eq_refl). cbn. lia.
Defined.

(** ** C10: the cycles before the first uptime sample *)

(** As long as no cycle drained an uptime sample, [uptime_msg] holds what its
    stack slot held when the task started. *)
Lemma uptime_msg_untouched (w : world) (evs : list event) :
  no_uptime_drained w evs = true ->
  uptime_msg (agg (run w evs)) = uptime_msg (agg w).
Proof.
  revert w. induction evs as [|ev rest IH]; intros w Hnone; [done|].
  cbn [no_uptime_drained] in Hnone. apply andb_true_iff in Hnone as [Hev Hrest].
  unfold run. cbn [foldl]. fold (run (step w ev) rest).
  rewrite (IH _ Hrest).
  destruct ev as [| |inp|clk|now|cfg r1 r2]; try (by rewrite step_agg).
  destruct (msgs (uptime_msgq (sys w))) as [|m q] eqn:Hq; [|done].
  cbn [step].
  pose proof (aggregator_cycle_uptime_msg clk (sys w) (agg w)) as Hum.
  destruct (aggregator_cycle clk (sys w) (agg w)) as [[s' l'] f]. cbn in *.
  rewrite Hum. by apply current_uptime_kept.
Qed.

(** C10.  Take any run from boot in which no aggregator cycle has drained an
    uptime sample, and let the next cycle find the uptime queue empty too.
    The freshness check of that cycle is evaluated on the initial content
    [uptime_slot] of the uninitialised [uptime_msg]: the frame's uptime is the
    slot's value whenever the slot's timestamp passes the check (the fallback
    only otherwise), and the uptime part of [degraded] is decided by the
    slot's timestamp. *)
Theorem C10_uptime_from_uninitialised_slot
    (t_boot t_start : Z) (uptime_slot : uptime_data) (sensor_slot : sensor_data)
    (trigger_slot : Z) (evs : list event) (clk : aggregator_clock) :
  let w0 := world_init t_boot t_start uptime_slot sensor_slot trigger_slot in
  let w := run w0 evs in
  no_uptime_drained w0 evs = true ->
  msgs (uptime_msgq (sys w)) = [] ->
  uptime (cycle_frame clk (sys w) (agg w)) =
    (if is_data_fresh (uptime_timestamp uptime_slot) (t_frame clk) 2010
     then uptime_seconds uptime_slot
     else uptime_fallback clk (sys w)) /\
  (degraded (cycle_frame clk (sys w) (agg w)) = true <->
   2010 < t_frame clk - uptime_timestamp uptime_slot \/
   ~ sensor_fresh clk (sys w) \/ deadline_missed clk (agg w)).
Proof.
  intros w0 w Hnone Hempty.
  assert (current_uptime (sys w) (agg w) = uptime_slot) as Hcur.
  { rewrite current_uptime_kept by done.
    unfold w. by rewrite uptime_msg_untouched. }
  split.
  - rewrite cycle_frame_eq. cbn [uptime]. unfold uptime_fresh_b. by rewrite Hcur.
  - rewrite degraded_cycle. unfold uptime_stale. by rewrite Hcur.
Qed.

(** The first cycle after boot with a leftover [{100, 777}] in the slot: the
    frame's uptime is 777, where the fallback is 0. *)
Lemma C10_witness_first_cycle :
  let clk := {| t_wake := 200; t_frame := 200; t_avg := 200 |} in
  let w := run (cold_boot leftover_slot) before_first_cycle in
  no_uptime_drained (cold_boot leftover_slot) before_first_cycle = true /\
  msgs (uptime_msgq (sys w)) = [] /\
  uptime (cycle_frame clk (sys w) (agg w)) = 777 /\
  uptime_fallback clk (sys w) = 0.
Proof.
  intros clk w.
  assert (no_uptime_drained (cold_boot leftover_slot) before_first_cycle = true)
    as Hnone by reflexivity.
  assert (msgs (uptime_msgq (sys w)) = []) as Hempty by reflexivity.
  split; [exact Hnone|]. split; [exact Hempty|]. split; [|reflexivity].
  destruct (C10_uptime_from_uninitialised_slot 0 0 leftover_slot any_sensor_slot 0
              before_first_cycle clk Hnone Hempty) as [Hup _].
  exact Hup.
Defined.

(** * Properties beyond the specification *)

(** ** The average buffer as a ring *)

Lemma array_get_set_eq (a : list Z) (i v : Z) :
  0 <= i < Z.of_nat (length a) -> array_get (array_set a i v) i = v.
Proof.
  intros Hi. unfold array_get, array_set.
  by rewrite list_lookup_insert_eq by lia.
Qed.

Lemma array_get_set_ne (a : list Z) (i j v : Z) :
  0 <= i -> 0 <= j -> i <> j -> array_get (array_set a i v) j = array_get a j.
Proof.
  intros Hi Hj Hne. unfold array_get, array_set.
  by rewrite list_lookup_insert_ne by lia.
Qed.

(** X1.  Inserting a sample into a well-formed buffer keeps it well formed,
    writes the sample to the slot [index] and to no other slot, advances
    [index] cyclically and lets [count] grow up to 20. *)
Theorem X1_add_sensor_writes_one_slot (buffer : sensor_avg_buffer) (data : sensor_data) :
  buffer_wf buffer ->
  let buffer' := add_sensor_to_avg_buffer buffer data in
  buffer_wf buffer' /\
  array_get (timestamps buffer') (index buffer) = sensor_timestamp data /\
  array_get (sensor_values buffer') (index buffer) = sensor_value data /\
  (forall i, 0 <= i -> i <> index buffer ->
     array_get (timestamps buffer') i = array_get (timestamps buffer) i /\
     array_get (sensor_values buffer') i = array_get (sensor_values buffer) i) /\
  index buffer' = (index buffer + 1) mod 20 /\
  count buffer' = Z.min 20 (count buffer + 1).
Proof.
  intros Hwf buffer'. pose proof Hwf as [Hvs Hts Hindex Hcount].
  unfold SENSOR_AVG_BUFFER_SIZE in *.
  split; [by apply add_sensor_to_avg_buffer_wf|]. unfold buffer'. cbn.
  split; [apply array_get_set_eq; lia|].
  split; [apply array_get_set_eq; lia|].
  split; [|split].
  - intros i Hi Hne. split; apply array_get_set_ne; lia.
  - unfold SENSOR_AVG_BUFFER_SIZE. mod_lia.
  - unfold SENSOR_AVG_BUFFER_SIZE.
    destruct (count buffer <? 20) eqn:Hlt; [apply Z.ltb_lt in Hlt|apply Z.ltb_ge in Hlt]; lia.
Qed.

(** The scenario's buffer takes a fifth sample in slot 4. *)
Lemma X1_witness_fifth_sample :
  let buffer' := add_sensor_to_avg_buffer scenario_buffer (sensor_at 200 48) in
  array_get (timestamps buffer') 4 = 200 /\
  array_get (sensor_values buffer') 4 = 48 /\
  index buffer' = 5 /\ count buffer' = 5.
Proof.
  assert (buffer_wf scenario_buffer) as Hwf.
  { split; vm_compute; try reflexivity; split; easy. }
  destruct (X1_add_sensor_writes_one_slot scenario_buffer (sensor_at 200 48) Hwf)
    as (_ & Hts & Hvs & _ & Hindex & Hcount).
  intros buffer'. split; [exact Hts|]. split; [exact Hvs|].
  split; [exact Hindex|exact Hcount].
Defined.

Lemma slot_of_Z (j : nat) : Z.of_nat (slot_of j) = Z.of_nat j mod 20.
Proof. unfold slot_of. by rewrite Nat2Z.inj_mod. Qed.

Lemma slot_of_lt (j : nat) : (slot_of j < 20)%nat.
Proof. unfold slot_of. apply Nat.mod_upper_bound. lia. Qed.

Lemma slot_of_near (j n : nat) :
  (j < n)%nat -> (n < j + 20)%nat -> slot_of j <> slot_of n.
Proof.
  intros Hlt Hnear Heq. apply (f_equal Z.of_nat) in Heq.
  rewrite !slot_of_Z in Heq. mod_lia.
Qed.

(** The state of the buffer after a history of insertions. *)
Lemma buffer_after_history (history : list sensor_data) :
  let buffer := buffer_after history in
  let n := Z.of_nat (length history) in
  buffer_wf buffer /\
  count buffer = Z.min n 20 /\
  index buffer = n mod 20 /\
  (forall (j : nat) (d : sensor_data),
     history !! j = Some d -> (length history <= j + 20)%nat ->
     timestamps buffer !! slot_of j = Some (sensor_timestamp d) /\
     sensor_values buffer !! slot_of j = Some (sensor_value d)).
Proof.
  induction history as [|d' history IH] using rev_ind.
  - cbn. split; [apply avg_buffer_init_wf|]. repeat split; try done.
  - destruct IH as (Hwf & Hcount & Hindex & Hslots).
    unfold buffer_after in *. rewrite foldl_app. cbn [foldl].
    set (buffer := foldl add_sensor_to_avg_buffer avg_buffer_init history) in *.
    rewrite length_app. cbn [length].
    pose proof Hwf as [Hvs Hts Hi Hc]. unfold SENSOR_AVG_BUFFER_SIZE in *.
    assert (Z.to_nat (index buffer) = slot_of (length history)) as Hslot.
    { apply Nat2Z.inj. rewrite slot_of_Z, Z2Nat.id by lia. exact Hindex. }
    split; [by apply add_sensor_to_avg_buffer_wf|].
    cbn [count index timestamps sensor_values add_sensor_to_avg_buffer].
    unfold SENSOR_AVG_BUFFER_SIZE, array_set.
    split; [|split].
    + destruct (count buffer <? 20) eqn:Hlt;
        [apply Z.ltb_lt in Hlt|apply Z.ltb_ge in Hlt]; lia.
    + rewrite Hindex. mod_lia.
    + intros j d Hj Hrecent. rewrite Hslot.
      apply lookup_app_Some in Hj as [Hj|[Hlen Hj]].
      * pose proof (lookup_lt_Some _ _ _ Hj) as Hlt.
        rewrite !list_lookup_insert_ne by (apply not_eq_sym, slot_of_near; lia).
        apply Hslots; [done|lia].
      * apply list_lookup_singleton_Some in Hj as [Hj <-].
        replace j with (length history) by lia.
        pose proof (slot_of_lt (length history)).
        by rewrite !list_lookup_insert_eq by lia.
Qed.

(** X2.  After any history of insertions into the zeroed buffer, [count] is
    the number of samples inserted, up to 20, [index] is that number modulo
    20, and each of the 20 most recent samples is stored in the slot given by
    its position in the history modulo 20: an insertion overwrites the oldest
    stored sample. *)
Theorem X2_ring_holds_most_recent (history : list sensor_data) :
  let buffer := buffer_after history in
  let n := Z.of_nat (length history) in
  count buffer = Z.min n 20 /\
  index buffer = n mod 20 /\
  (forall (j : nat) (d : sensor_data),
     history !! j = Some d -> n <= Z.of_nat j + 20 ->
     array_get (timestamps buffer) (Z.of_nat j mod 20) = sensor_timestamp d /\
     array_get (sensor_values buffer) (Z.of_nat j mod 20) = sensor_value d).
Proof.
  intros buffer n.
  destruct (buffer_after_history history) as (_ & Hcount & Hindex & Hslots).
  split; [exact Hcount|]. split; [exact Hindex|].
  intros j d Hj Hrecent.
  destruct (Hslots j d Hj) as [Hts Hvs]; [lia|].
  rewrite <- slot_of_Z.
  split; by apply array_get_lookup.
Qed.

(** The ring entries are the most recent samples, in rotated order. *)
Lemma ring_entries_history (history : list sensor_data) :
  entry_of <$> most_recent history ≡ₚ ring_entries (buffer_after history).
Proof.
  destruct (buffer_after_history history) as (Hwf & Hcount & Hindex & Hslots).
  destruct Hwf as [Hvs Hts _ _].
  unfold most_recent, ring_entries, SENSOR_AVG_BUFFER_SIZE in *.
  set (buffer := buffer_after history) in *.
  set (n := length history) in *.
  set (c := (n - Z.to_nat 20)%nat).
  set (m := (n `min` 20)%nat).
  assert (Z.to_nat (count buffer) = m) as Hm by lia.
  rewrite Hm.
  apply Permutation_inj. split.
  { rewrite length_fmap, length_drop, length_take, length_zip_with. lia. }
  exists (fun i => if decide (i < m)%nat then slot_of (c + i) else i).
  assert (forall i, (i < m)%nat -> (slot_of (c + i) < m)%nat) as Hrange.
  { intros i Hi. destruct (decide (n <= 20)%nat).
    - replace (c + i)%nat with i by lia. unfold slot_of.
      rewrite Nat.mod_small; lia.
    - pose proof (slot_of_lt (c + i)). lia. }
  split.
  - intros i1 i2 Heq.
    destruct (decide (i1 < m)%nat) as [H1|H1], (decide (i2 < m)%nat) as [H2|H2].
    + destruct (Nat.lt_trichotomy i1 i2) as [Hlt|[->|Hlt]]; [|done|].
      * by destruct (slot_of_near (c + i1) (c + i2)); [lia|lia|].
      * by destruct (slot_of_near (c + i2) (c + i1)); [lia|lia|].
    + specialize (Hrange i1 H1). lia.
    + specialize (Hrange i2 H2). lia.
    + done.
  - intros i. destruct (decide (i < m)%nat) as [Hi|Hi].
    + rewrite list_lookup_fmap, lookup_drop.
      destruct (lookup_lt_is_Some_2 history (c + i)) as [d Hd]; [lia|].
      rewrite Hd. cbn.
      destruct (Hslots (c + i)%nat d Hd) as [Ht Hv]; [lia|].
      rewrite lookup_take_lt by by apply Hrange.
      symmetry. apply lookup_zip_with_Some. by eexists _, _.
    + rewrite !lookup_ge_None_2; [done| |].
      * rewrite length_take, length_zip_with. lia.
      * rewrite length_fmap, length_drop. lia.
Qed.

Lemma sum_list_Permutation (l k : list Z) : l ≡ₚ k -> sum_list l = sum_list k.
Proof.
  unfold sum_list. induction 1; cbn; lia.
Qed.

Lemma filter_entry_of (now : Z) (samples : list sensor_data) :
  in_window now (entry_of <$> samples) =
  entry_of <$> filter (fun d => now - 200 <= sensor_timestamp d) samples.
Proof.
  unfold in_window. induction samples as [|d samples IH]; [done|].
  rewrite fmap_cons.
  destruct (decide (now - 200 <= sensor_timestamp d)) as [Hin|Hout].
  - rewrite !filter_cons_True by done. by rewrite fmap_cons, IH.
  - by rewrite !filter_cons_False.
Qed.

(** X3.  For sensor values between 0 and 100, the average read at [now]
    after any history of insertions is the mean of those of the 20 most
    recent samples whose timestamp is at least [now - 200]: a sample inside
    the time window but older than the 20 most recent ones does not count. *)
Theorem X3_average_of_most_recent (history : list sensor_data) (now : Z) :
  Forall (fun d => value_in_range (sensor_value d)) history ->
  calculate_sensor_avg_200ms (buffer_after history) now =
  mean (sensor_value <$>
        filter (fun d => now - 200 <= sensor_timestamp d) (most_recent history)).
Proof.
  intros Hrange.
  destruct (buffer_after_history history) as (Hwf & _).
  rewrite calculate_sensor_avg_200ms_window by done.
  set (recent := filter (fun d => now - 200 <= sensor_timestamp d)
                   (most_recent history)).
  assert (in_window now (ring_entries (buffer_after history)) ≡ₚ entry_of <$> recent)
    as Hperm.
  { unfold recent. rewrite <- filter_entry_of. unfold in_window.
    apply filter_Permutation. symmetry. apply ring_entries_history. }
  assert (Forall value_in_range (sensor_value <$> recent)) as Hvalues.
  { apply Forall_fmap, Forall_forall. intros d Hd.
    apply list_elem_of_filter in Hd as [_ Hd].
    apply (subseteq_drop _ _ d) in Hd. rewrite Forall_forall in Hrange.
    by apply Hrange. }
  assert ((in_window now (ring_entries (buffer_after history))).*2 ≡ₚ
          sensor_value <$> recent) as Hperm2.
  { rewrite Hperm, <- list_fmap_compose. done. }
  destruct (in_window now (ring_entries (buffer_after history))) as [|e window] eqn:Hw.
  - cbn in Hperm2. apply Permutation_nil_l in Hperm2. by rewrite <- Hperm2.
  - cbv zeta. rewrite (sum_list_Permutation _ _ Hperm2).
    replace (length (e :: window)) with (length (sensor_value <$> recent))
      by (by rewrite <- Hperm2, length_fmap).
    pose proof (sum_list_bounds _ Hvalues) as Hsum.
    destruct (sensor_value <$> recent) as [|v values] eqn:Hrecent.
    { by apply Permutation_nil_r in Hperm2. }
    unfold mean.
    set (total := sum_list (v :: values)) in *.
    set (len := Z.of_nat (length (v :: values))) in *.
    assert (0 < len) by (unfold len; cbn [length]; lia).
    apply to_uint32_small. rewrite Z.quot_div_nonneg by lia.
    split; [apply Z.div_pos; lia|].
    assert (total / len <= 100) by (apply Z.div_le_upper_bound; lia). lia.
Qed.

(** 25 samples within 250 ms, read at 250 ms: 21 of them are inside the time
    window, among them one of value 100, but the mean is that of the 20 most
    recent values, 6 to 25. *)
Lemma X3_witness_dense_history :
  calculate_sensor_avg_200ms (buffer_after dense_history) 250 = 15 /\
  mean (sensor_value <$>
        filter (fun d => 250 - 200 <= sensor_timestamp d) dense_history) = 19.
Proof.
  assert (Forall (fun d => value_in_range (sensor_value d)) dense_history) as Hrange.
  { vm_compute. repeat constructor; easy. }
  split; [|reflexivity].
  rewrite (X3_average_of_most_recent dense_history 250 Hrange). reflexivity.
Defined.

(** ** The synthetic sensor *)

(** The conversion to [int] undoes the wrap of a small negative value. *)
Lemma to_int32_to_uint32 (z : Z) : - 2 ^ 31 <= z < 2 ^ 31 -> to_int32 (to_uint32 z) = z.
Proof.
  intros Hz. unfold to_int32, to_uint32.
  change (2 ^ 32) with 4294967296 in *. change (2 ^ 31) with 2147483648 in *.
  rewrite Zmod_mod.
  destruct (z mod 4294967296 <? 2147483648) eqn:Hlt;
    [apply Z.ltb_lt in Hlt|apply Z.ltb_ge in Hlt]; mod_lia.
Qed.

(** X4.  A synthetic sample carries the time of its generation and the value
    [sine + 50 + noise] clamped to 0..100, where the noise is
    [rand mod 21 - 10], between -10 and 10: the unsigned arithmetic in which
    the noise is computed does not show in the result. *)
Theorem X4_synthetic_sensor_value (now sine rand : Z) :
  let noise := rand mod 21 - 10 in
  let data := synthetic_sensor_data now sine rand in
  sensor_timestamp data = now /\
  sensor_value data = Z.max 0 (Z.min 100 (sine + 50 + noise)) /\
  0 <= sensor_value data <= 100 /\
  -10 <= noise <= 10.
Proof.
  intros noise data.
  assert (-10 <= noise <= 10) as Hnoise by (unfold noise; mod_lia).
  assert (sensor_value data = Z.max 0 (Z.min 100 (sine + 50 + noise))) as Hvalue.
  { unfold data, synthetic_sensor_data. cbn [sensor_value].
    fold noise. rewrite to_int32_to_uint32 by (change (2 ^ 31) with 2147483648; lia).
    repeat case_match; lia. }
  split; [done|]. split; [exact Hvalue|]. split; [lia|exact Hnoise].
Qed.

(** ** From a timer expiry to a queued sample *)

(** X5.  With the trigger queue empty: when the sensor timer expires and the
    producer runs next, the sensor queue (if it has room) has the new sample
    at its tail, stamped with the producer's clock reading; when the uptime
    timer expires and the producer runs next, the uptime queue (if it has
    room) has at its tail a sample with that reading as timestamp and
    [(now - system_start_time) / 1000] as uptime.  In both cases the trigger
    queue is empty again, nothing is logged and the other queue is
    untouched. *)
Theorem X5_timer_expiry_to_queue (w : world) (inp : producer_input) :
  msgs (trigger_msgq (sys w)) = [] ->
  k_msgq_full (trigger_msgq (sys w)) = false ->
  (k_msgq_full (sensor_msgq (sys w)) = false ->
   let w' := step (step w SensorTimerExpiry) (ProducerRuns inp) in
   msgs (sensor_msgq (sys w')) =
     msgs (sensor_msgq (sys w)) ++
     [synthetic_sensor_data (p_now inp) (p_sine inp) (p_rand inp)] /\
   uptime_msgq (sys w') = uptime_msgq (sys w) /\
   msgs (trigger_msgq (sys w')) = [] /\
   log (sys w') = log (sys w) /\
   counter (prod w') = to_uint32 (counter (prod w) + 1)) /\
  (k_msgq_full (uptime_msgq (sys w)) = false ->
   let w' := step (step w UptimeTimerExpiry) (ProducerRuns inp) in
   msgs (uptime_msgq (sys w')) =
     msgs (uptime_msgq (sys w)) ++
     [{| uptime_timestamp := p_now inp;
         uptime_seconds :=
           to_uint32 (Z.quot (p_now inp - system_start_time (sys w)) 1000) |}] /\
   sensor_msgq (sys w') = sensor_msgq (sys w) /\
   msgs (trigger_msgq (sys w')) = [] /\
   log (sys w') = log (sys w) /\
   counter (prod w') = counter (prod w)).
Proof.
  intros Hempty Hroom. split; intros Hdata w'; unfold w'; cbn [step].
  - unfold synthetic_sensor_work_handler.
    rewrite k_msgq_put_no_wait, Hroom, Hempty. cbn.
    unfold producer_iteration, k_msgq_get. cbn.
    rewrite k_msgq_put_no_wait, Hdata. by cbn.
  - unfold uptime_work_handler.
    rewrite k_msgq_put_no_wait, Hroom, Hempty. cbn.
    unfold producer_iteration, k_msgq_get. cbn.
    rewrite k_msgq_put_no_wait, Hdata. by cbn.
Qed.

(** The first sensor sample after boot, at 50 ms. *)
Lemma X5_witness_first_sample :
  msgs (sensor_msgq (sys (step (step (cold_boot zeroed_slot) SensorTimerExpiry)
                            (ProducerRuns (producer_at 50))))) = [sensor_at 50 50].
Proof.
  destruct (X5_timer_expiry_to_queue (cold_boot zeroed_slot) (producer_at 50)
              eq_refl eq_refl) as [Hsensor _].
  destruct (Hsensor eq_refl) as [Hqueue _]. exact Hqueue.
Defined.

(** ** The producer's uninitialised [trigger_id] *)

(** The producer acts on the trigger it received, never on what [trigger_id]
    held before: [k_msgq_get] with [K_FOREVER] returns only with a message. *)
Lemma producer_iteration_trigger_id (inp : producer_input) (s : system)
    (p1 p2 : producer_locals) :
  counter p1 = counter p2 ->
  producer_iteration inp s p1 = producer_iteration inp s p2.
Proof.
  intros Hcounter. unfold producer_iteration, k_msgq_get.
  destruct (msgs (trigger_msgq s)) as [|tid rest]; [done|].
  cbn. by rewrite Hcounter.
Qed.

Lemma step_same_but_trigger_id (w1 w2 : world) (ev : event) :
  same_but_trigger_id w1 w2 -> same_but_trigger_id (step w1 ev) (step w2 ev).
Proof.
  intros (Hsys & Hagg & Hstatus & Hcounter).
  destruct ev as [| |inp|clk|now|cfg r1 r2]; cbn [step];
    rewrite <- ?Hsys, <- ?Hagg, <- ?Hstatus.
  - by destruct (synthetic_sensor_work_handler (sys w1)).
  - by destruct (uptime_work_handler (sys w1)).
  - rewrite <- (producer_iteration_trigger_id inp (sys w1) (prod w1) (prod w2))
      by done.
    by destruct (producer_iteration inp (sys w1) (prod w1)) as [[s p]|].
  - by destruct (aggregator_cycle clk (sys w1) (agg w1)) as [[s l] f].
  - by destruct (main_iteration now (sys w1) (last_status_time w1)).
  - done.
Qed.

(** X6.  What the stack slot of the producer's [trigger_id] held at boot has
    no effect on the program: after any run the queues, the frame counter,
    the log, the console and the locals of the aggregator and of [main] are
    the same for any two initial contents. *)
Theorem X6_trigger_id_slot_irrelevant (t_boot t_start : Z) (uptime_slot : uptime_data)
    (sensor_slot : sensor_data) (slot1 slot2 : Z) (evs : list event) :
  same_but_trigger_id
    (run (world_init t_boot t_start uptime_slot sensor_slot slot1) evs)
    (run (world_init t_boot t_start uptime_slot sensor_slot slot2) evs).
Proof.
  assert (same_but_trigger_id
            (world_init t_boot t_start uptime_slot sensor_slot slot1)
            (world_init t_boot t_start uptime_slot sensor_slot slot2)) as Hinit
    by done.
  revert Hinit.
  generalize (world_init t_boot t_start uptime_slot sensor_slot slot1).
  generalize (world_init t_boot t_start uptime_slot sensor_slot slot2).
  intros w2 w1. revert w1 w2.
  induction evs as [|ev rest IH]; intros w1 w2 Hsame; [done|].
  unfold run. cbn [foldl]. apply IH.
  by apply step_same_but_trigger_id.
Qed.

(** ** The uptime a frame reports *)

Lemma synthetic_sensor_work_handler_uptime (s : system) :
  exists s', synthetic_sensor_work_handler s = Returns s' /\
             system_start_time s' = system_start_time s /\
             uptime_msgq s' = uptime_msgq s.
Proof.
  unfold synthetic_sensor_work_handler. rewrite k_msgq_put_no_wait. cbn.
  destruct (k_msgq_full (trigger_msgq s)); cbn; eauto.
Qed.

Lemma uptime_work_handler_uptime (s : system) :
  exists s', uptime_work_handler s = Returns s' /\
             system_start_time s' = system_start_time s /\
             uptime_msgq s' = uptime_msgq s.
Proof.
  unfold uptime_work_handler. rewrite k_msgq_put_no_wait. cbn.
  destruct (k_msgq_full (trigger_msgq s)); cbn; eauto.
Qed.

(** The producer leaves the uptime queue as it is or appends one sample
    computed from its clock reading. *)
Lemma producer_iteration_uptime (inp : producer_input) (s s' : system)
    (p p' : producer_locals) :
  producer_iteration inp s p = Returns (s', p') ->
  system_start_time s' = system_start_time s /\
  (msgs (uptime_msgq s') = msgs (uptime_msgq s) \/
   msgs (uptime_msgq s') =
     msgs (uptime_msgq s) ++
     [{| uptime_timestamp := p_now inp;
         uptime_seconds :=
           to_uint32 (Z.quot (p_now inp - system_start_time s) 1000) |}]).
Proof.
  unfold producer_iteration, k_msgq_get.
  destruct (msgs (trigger_msgq s)) as [|tid rest]; [done|]. cbn.
  rewrite !k_msgq_put_no_wait. cbn.
  repeat case_match; intros [= <- <-]; cbn; simplify_eq; cbn; auto.
Qed.

Lemma step_uptime_inv (t_boot : Z) (w : world) (ev : event) :
  uptime_inv t_boot w -> uptime_inv t_boot (step w ev).
Proof.
  intros [Hstart Hqueue]. unfold uptime_inv.
  destruct ev as [| |inp|clk|now|cfg r1 r2];
    [cbn [step]|cbn [step]|cbn [step]| |cbn [step]|cbn [step]].
  - destruct (synthetic_sensor_work_handler_uptime (sys w)) as (s' & -> & Hs & Hq).
    cbn. by rewrite Hs, Hq.
  - destruct (uptime_work_handler_uptime (sys w)) as (s' & -> & Hs & Hq).
    cbn. by rewrite Hs, Hq.
  - destruct (producer_iteration inp (sys w) (prod w)) as [[s' p']|] eqn:Hp; [|done].
    apply producer_iteration_uptime in Hp as [Hs [Hq|Hq]]; cbn; rewrite Hs, Hq;
      [done|].
    split; [done|]. apply Forall_app. split; [done|].
    constructor; [|constructor]. unfold uptime_consistent. cbn. by rewrite Hstart.
  - rewrite step_aggregator. cbn [sys]. rewrite aggregator_cycle_sys. cbn.
    split; [done|constructor].
  - unfold main_iteration. by destruct (10000 <=? now - last_status_time w).
  - done.
Qed.

Lemma run_uptime_inv (t_boot : Z) (w : world) (evs : list event) :
  uptime_inv t_boot w -> uptime_inv t_boot (run w evs).
Proof.
  revert w. induction evs as [|ev rest IH]; intros w Hw; [done|].
  unfold run. cbn [foldl]. apply IH. by apply step_uptime_inv.
Qed.

(** X7.  In any run from boot, when a cycle drains an uptime sample that is
    at most 2010 ms old at the frame's timestamp, the frame reports the
    uptime the producer computed when it took the sample,
    [(sample time - boot time) / 1000].  If the sample was taken after boot
    and not after the frame's timestamp (and the uptime fits 32 bits), the
    reported uptime is at most 3 s behind the true uptime at the frame's
    timestamp and never ahead of it. *)
Theorem X7_frame_uptime_lags_at_most_3s
    (t_boot t_start : Z) (uptime_slot : uptime_data) (sensor_slot : sensor_data)
    (trigger_slot : Z) (evs : list event) (clk : aggregator_clock) (m : uptime_data) :
  let w := run (world_init t_boot t_start uptime_slot sensor_slot trigger_slot) evs in
  let f := cycle_frame clk (sys w) (agg w) in
  last_drained (msgs (uptime_msgq (sys w))) = Some m ->
  t_frame clk - uptime_timestamp m <= 2010 ->
  uptime f = to_uint32 (Z.quot (uptime_timestamp m - t_boot) 1000) /\
  (t_boot <= uptime_timestamp m <= t_frame clk ->
   t_frame clk - t_boot < 2 ^ 32 * 1000 ->
   Z.quot (t_frame clk - t_boot) 1000 - 3 <= uptime f
     <= Z.quot (t_frame clk - t_boot) 1000).
Proof.
  intros w f Hlast Hfresh.
  assert (uptime_inv t_boot w) as [Hstart Hqueue].
  { apply run_uptime_inv. split; [done|constructor]. }
  assert (uptime_consistent t_boot m) as Hm.
  { rewrite Forall_forall in Hqueue. apply Hqueue.
    by apply last_Some_elem_of. }
  assert (uptime f = uptime_seconds m) as Huptime.
  { destruct (uptime_field_cycle clk (sys w) (agg w)) as [Huse _].
    unfold f. rewrite Huse.
    - by rewrite (current_uptime_drained _ _ m).
    - unfold uptime_stale. rewrite (current_uptime_drained _ _ m) by done. lia. }
  rewrite Huptime, Hm. split; [done|].
  intros Horder Hfits. change (2 ^ 32) with 4294967296 in Hfits.
  rewrite to_uint32_small by (change (2 ^ 32) with 4294967296; mod_lia).
  mod_lia.
Qed.

(** The uptime sample of 1000 ms, drained by a cycle at 1200 ms: the frame
    reports 1 s. *)
Lemma X7_witness_first_uptime_sample :
  uptime (cycle_frame (clock_at 1200)
            (sys (run (cold_boot zeroed_slot) first_uptime_trace))
            (agg (run (cold_boot zeroed_slot) first_uptime_trace))) = 1.
Proof.
  destruct (X7_frame_uptime_lags_at_most_3s 0 0 zeroed_slot any_sensor_slot 0
              first_uptime_trace (clock_at 1200)
              {| uptime_timestamp := 1000; uptime_seconds := 1 |}
              eq_refl) as [Huptime _].
  - cbn. lia.
  - exact Huptime.
Defined.

(** ** Cycles without input *)

Lemma in_window_empty (now : Z) (buffer : sensor_avg_buffer) :
  window_empty now buffer -> in_window now (ring_entries buffer) = [].
Proof.
  unfold window_empty, in_window. intros Hold.
  induction Hold as [|e entries He _ IH]; [done|].
  rewrite filter_cons_False by lia. exact IH.
Qed.

Lemma aggregator_cycle_avg_buffer (clk : aggregator_clock) (s : system)
    (l : aggregator_locals) :
  avg_buffer (aggregator_cycle clk s l).1.2 =
  foldl add_sensor_to_avg_buffer (avg_buffer l) (msgs (sensor_msgq s)).
Proof.
  unfold aggregator_cycle. rewrite drain_sensor_spec. cbn. by repeat case_match.
Qed.

(** X8.  Starting with both data queues empty, any number of aggregator
    cycles with no producer activity in between still emits one frame per
    cycle.  Each of these frames carries the sentinel -1 and is degraded; the
    average buffer is left as it was; and a frame whose average is read more
    than 200 ms after every stored timestamp reports the average 0. *)
Theorem X8_starved_cycles (w : world) (clks : list aggregator_clock) :
  msgs (sensor_msgq (sys w)) = [] ->
  msgs (uptime_msgq (sys w)) = [] ->
  buffer_wf (avg_buffer (agg w)) ->
  let w' := run w (AggregatorRuns <$> clks) in
  avg_buffer (agg w') = avg_buffer (agg w) /\
  exists new_frames,
    emitted_frames w' = emitted_frames w ++ new_frames /\
    Forall (fun f => latest_sensor_value f = -1 /\ degraded f = true) new_frames /\
    Forall2 (fun clk f =>
               timestamp f = t_frame clk /\
               (window_empty (t_avg clk) (avg_buffer (agg w)) ->
                sensor_avg_last_200ms f = 0))
            clks new_frames.
Proof.
  intros Hsensor Huptime Hwf. cbv zeta. revert w Hsensor Huptime Hwf.
  induction clks as [|clk clks IH]; intros w Hsensor Huptime Hwf.
  - split; [done|]. exists []. rewrite app_nil_r. repeat split; constructor.
  - rewrite fmap_cons. unfold run. cbn [foldl].
    fold (run (step w (AggregatorRuns clk)) (AggregatorRuns <$> clks)).
    set (w1 := step w (AggregatorRuns clk)).
    assert (avg_buffer (agg w1) = avg_buffer (agg w)) as Hbuffer.
    { unfold w1. rewrite step_aggregator. cbn [agg].
      by rewrite aggregator_cycle_avg_buffer, Hsensor. }
    assert (msgs (sensor_msgq (sys w1)) = [] /\ msgs (uptime_msgq (sys w1)) = [])
      as [Hsensor1 Huptime1].
    { unfold w1. rewrite step_aggregator. cbn [sys].
      by rewrite aggregator_cycle_sys. }
    destruct (IH w1 Hsensor1 Huptime1) as (Hbuffer' & frames & Hframes & Hall & Hclks).
    { by rewrite Hbuffer. }
    split; [by rewrite Hbuffer', Hbuffer|].
    exists (cycle_frame clk (sys w) (agg w) :: frames).
    destruct (step_aggregator_frames w clk) as [_ Hemitted]. fold w1 in Hemitted.
    split; [by rewrite Hframes, Hemitted, <- app_assoc|].
    assert (~ sensor_fresh clk (sys w)) as Hstale.
    { intros (m & Hm & _). unfold last_drained in Hm. by rewrite Hsensor in Hm. }
    split.
    + constructor; [|done]. split.
      * rewrite cycle_frame_eq. cbn [latest_sensor_value].
        unfold last_drained. by rewrite Hsensor.
      * apply degraded_cycle. tauto.
    + constructor; [|by rewrite <- Hbuffer].
      split; [by rewrite cycle_frame_eq|]. intros Hold.
      rewrite cycle_frame_eq. cbn [sensor_avg_last_200ms]. rewrite Hsensor. cbn [foldl].
      rewrite calculate_sensor_avg_200ms_window by done.
      by rewrite in_window_empty.
Qed.

(** The running system, drained at 1200 ms and then starved: the frames of
    1400, 1600 and 1800 ms. *)
Lemma X8_witness_starved :
  let w := step running_world (AggregatorRuns (clock_at 1200)) in
  let w' := run w (AggregatorRuns <$> starved_clocks) in
  avg_buffer (agg w') = avg_buffer (agg w) /\
  (fun f => (timestamp f, latest_sensor_value f, sensor_avg_last_200ms f, degraded f))
    <$> drop 1 (emitted_frames w') =
  [(1400, -1, 0, true); (1600, -1, 0, true); (1800, -1, 0, true)].
Proof.
  intros w w'.
  assert (buffer_wf (avg_buffer (agg w))) as Hwf.
  { split; vm_compute; try reflexivity; split; easy. }
  destruct (X8_starved_cycles w starved_clocks eq_refl eq_refl Hwf) as [Hbuffer _].
  split; [exact Hbuffer|reflexivity].
Defined.

(** ** Deadline warnings *)

Lemma deadline_warnings_app (l1 l2 : list log_record) :
  deadline_warnings (l1 ++ l2) = deadline_warnings l1 ++ deadline_warnings l2.
Proof. unfold deadline_warnings. apply omap_app. Qed.

Lemma step_other_deadline_warnings (w : world) (ev : event) :
  is_aggregator_event ev = false ->
  deadline_warnings (log (sys (step w ev))) = deadline_warnings (log (sys w)).
Proof.
  intros Hev. destruct ev as [| |inp|clk|now|cfg r1 r2]; cbn [step]; try done.
  - unfold synthetic_sensor_work_handler. rewrite k_msgq_put_no_wait. cbn.
    destruct (k_msgq_full (trigger_msgq (sys w))); cbn; [|done].
    change (- ENOMSG =? 0) with false. cbn.
    rewrite deadline_warnings_app. cbn. by rewrite app_nil_r.
  - unfold uptime_work_handler. rewrite k_msgq_put_no_wait. cbn.
    destruct (k_msgq_full (trigger_msgq (sys w))); cbn; [|done].
    change (- ENOMSG =? 0) with false. cbn.
    rewrite deadline_warnings_app. cbn. by rewrite app_nil_r.
  - unfold producer_iteration, k_msgq_get.
    destruct (msgs (trigger_msgq (sys w))) as [|tid rest]; [done|]. cbn.
    rewrite !k_msgq_put_no_wait. cbn.
    change (- ENOMSG =? 0) with false.
    repeat case_match; simplify_eq; cbn; try done;
      rewrite deadline_warnings_app; cbn; by rewrite app_nil_r.
  - unfold main_iteration. by destruct (10000 <=? now - last_status_time w).
Qed.

(** The invariant behind X9, for any starting world that satisfies it. *)
Lemma run_deadline_warnings (w : world) (evs : list event) :
  Forall (fun by_ms => 10 < by_ms) (deadline_warnings (log (sys w))) ->
  (length (deadline_warnings (log (sys w)))
   <= length (degraded_frames (emitted_frames w)))%nat ->
  Forall (fun by_ms => 10 < by_ms) (deadline_warnings (log (sys (run w evs)))) /\
  (length (deadline_warnings (log (sys (run w evs))))
   <= length (degraded_frames (emitted_frames (run w evs))))%nat.
Proof.
  revert w. induction evs as [|ev rest IH]; intros w Hover Hcount; [done|].
  unfold run. cbn [foldl]. apply IH.
  - destruct (is_aggregator_event ev) eqn:Hev.
    + destruct ev as [| |inp|clk|now|cfg r1 r2]; try done.
      rewrite step_aggregator. cbn [sys]. rewrite aggregator_cycle_sys. cbn [log].
      destruct (deadline_met (t_wake clk) (last_frame_time (agg w))) eqn:Hmet; [done|].
      rewrite deadline_warnings_app. apply Forall_app. split; [done|].
      apply deadline_met_false in Hmet. cbn. constructor; [|constructor].
      unfold TELEMETRY_FRAME_RATE_MS. lia.
    + by rewrite step_other_deadline_warnings.
  - destruct (is_aggregator_event ev) eqn:Hev.
    + destruct ev as [| |inp|clk|now|cfg r1 r2]; try done.
      destruct (step_aggregator_frames w clk) as [_ ->].
      rewrite step_aggregator. cbn [sys]. rewrite aggregator_cycle_sys. cbn [log].
      unfold degraded_frames in *. rewrite filter_app, length_app.
      destruct (deadline_met (t_wake clk) (last_frame_time (agg w))) eqn:Hmet; [lia|].
      rewrite deadline_warnings_app, length_app.
      change (length (deadline_warnings [WRN_frame_deadline_missed _])) with 1%nat.
      rewrite filter_cons_True, filter_nil; [cbn [length]; lia|].
      apply degraded_cycle. right. right. by apply deadline_met_false.
    + rewrite step_other_deadline_warnings by done.
      by destruct (step_other_frames w ev Hev) as [_ ->].
Qed.

(** X9.  In any run from boot, every deadline warning in the log reports an
    overage of more than 10 ms, and there are at least as many degraded
    frames on the console as deadline warnings in the log: a logged miss
    always comes with a degraded frame. *)
Theorem X9_deadline_warnings (t_boot t_start : Z) (uptime_slot : uptime_data)
    (sensor_slot : sensor_data) (trigger_slot : Z) (evs : list event) :
  let w := run (world_init t_boot t_start uptime_slot sensor_slot trigger_slot) evs in
  Forall (fun by_ms => 10 < by_ms) (deadline_warnings (log (sys w))) /\
  (length (deadline_warnings (log (sys w)))
   <= length (degraded_frames (emitted_frames w)))%nat.
Proof.
  apply run_deadline_warnings; [constructor|cbn; lia].
Qed.

(** ** From the sensor queue to the average buffer *)

(** One step moves samples from the producer to the queue or from the queue
    to the aggregator, and loses none. *)
Lemma step_sensor_flow (w : world) (ev : event) :
  drained_samples w [ev] ++ msgs (sensor_msgq (sys (step w ev))) =
  msgs (sensor_msgq (sys w)) ++ published_samples w [ev].
Proof.
  cbn [drained_samples published_samples]. rewrite !app_nil_r.
  destruct ev as [| |inp|clk|now|cfg r1 r2];
    [cbn [step]|cbn [step]|cbn [step]| |cbn [step]|cbn [step]].
  - destruct (synthetic_sensor_work_handler_sensor_msgq (sys w)) as (s' & -> & Hs).
    cbn. rewrite Hs. by rewrite app_nil_r.
  - destruct (uptime_work_handler_sensor_msgq (sys w)) as (s' & -> & Hs).
    cbn. rewrite Hs. by rewrite app_nil_r.
  - unfold producer_iteration, k_msgq_get.
    destruct (msgs (trigger_msgq (sys w))) as [|tid rest]; [cbn; by rewrite app_nil_r|].
    cbn. rewrite !k_msgq_put_no_wait. cbn. change (- ENOMSG =? 0) with false.
    destruct (tid =? TRIGGER_SYNTHETIC_SENSOR); cbn.
    + by destruct (k_msgq_full (sensor_msgq (sys w))); cbn; rewrite ?app_nil_r.
    + destruct (tid =? TRIGGER_UPTIME); cbn; [|by rewrite app_nil_r].
      by destruct (k_msgq_full (uptime_msgq (sys w))); cbn; rewrite ?app_nil_r.
  - rewrite step_aggregator. cbn [sys]. rewrite aggregator_cycle_sys. cbn.
    by rewrite !app_nil_r.
  - unfold main_iteration.
    destruct (10000 <=? now - last_status_time w); cbn; by rewrite app_nil_r.
  - cbn. by rewrite app_nil_r.
Qed.

(** X11.  In any run, the samples the aggregator has drained followed by the
    samples still waiting in the sensor queue are exactly the samples that
    waited at the start followed by the samples the queue has accepted since,
    in the same order: between the queue and the aggregator no sample is
    lost, duplicated or reordered. *)
Theorem X11_sensor_samples_conserved (w : world) (evs : list event) :
  drained_samples w evs ++ msgs (sensor_msgq (sys (run w evs))) =
  msgs (sensor_msgq (sys w)) ++ published_samples w evs.
Proof.
  revert w. induction evs as [|ev rest IH]; intros w.
  - cbn. by rewrite app_nil_r.
  - pose proof (step_sensor_flow w ev) as Hstep.
    cbn [drained_samples published_samples] in *. rewrite !app_nil_r in Hstep.
    unfold run. cbn [foldl]. fold (run (step w ev) rest).
    rewrite <- !app_assoc, IH, !app_assoc. by rewrite Hstep.
Qed.

(** ** The load generator *)

(** X12.  With configured bounds [0 <= min < max] (as [int]s) and any 32-bit
    random readings, the sleep interval of the load generator lies in
    [min, max) of the interval bounds and the burst duration in [min, max)
    of the duration bounds: the upper bounds are never reached.  The
    iteration leaves the global state alone. *)
Theorem X12_load_spike_bounds (cfg : load_config) (rand1 rand2 : Z) (s : system) :
  0 <= NEXT_LOAD_SPIKE_MIN_INTERVAL_MS cfg < NEXT_LOAD_SPIKE_MAX_INTERVAL_MS cfg ->
  NEXT_LOAD_SPIKE_MAX_INTERVAL_MS cfg < 2 ^ 31 ->
  0 <= LOAD_SPIKE_MIN_DURATION_MS cfg < LOAD_SPIKE_MAX_DURATION_MS cfg ->
  LOAD_SPIKE_MAX_DURATION_MS cfg < 2 ^ 31 ->
  0 <= rand1 < 2 ^ 32 -> 0 <= rand2 < 2 ^ 32 ->
  let '(s', (interval, duration)) := load_spike_iteration cfg rand1 rand2 s in
  s' = s /\
  NEXT_LOAD_SPIKE_MIN_INTERVAL_MS cfg <= interval < NEXT_LOAD_SPIKE_MAX_INTERVAL_MS cfg /\
  LOAD_SPIKE_MIN_DURATION_MS cfg <= duration < LOAD_SPIKE_MAX_DURATION_MS cfg.
Proof.
  intros Hinterval Himax Hduration Hdmax Hr1 Hr2.
  unfold load_spike_iteration, to_uint32.
  change (2 ^ 32) with 4294967296 in *. change (2 ^ 31) with 2147483648 in *.
  split; [done|].
  rewrite (Z.mod_small (NEXT_LOAD_SPIKE_MAX_INTERVAL_MS cfg - _)) by lia.
  rewrite (Z.mod_small (LOAD_SPIKE_MAX_DURATION_MS cfg - _)) by lia.
  pose proof (Z.mod_pos_bound rand1
                (NEXT_LOAD_SPIKE_MAX_INTERVAL_MS cfg -
                 NEXT_LOAD_SPIKE_MIN_INTERVAL_MS cfg)) as Hb1.
  pose proof (Z.mod_pos_bound rand2
                (LOAD_SPIKE_MAX_DURATION_MS cfg - LOAD_SPIKE_MIN_DURATION_MS cfg))
    as Hb2.
  specialize (Hb1 ltac:(lia)). specialize (Hb2 ltac:(lia)).
  set (r1 := rand1 mod _) in *. set (r2 := rand2 mod _) in *.
  rewrite (Z.mod_small (_ + r1)), (Z.mod_small (_ + r2)) by lia. lia.
Qed.

(** Two random readings under the example configuration. *)
Lemma X12_witness_example_config :
  let r := load_spike_iteration example_load_config 123456789 4000000000
             (system_init 0) in
  500 <= r.2.1 < 2000 /\ 50 <= r.2.2 < 150.
Proof.
  intros r. unfold r.
  pose proof (X12_load_spike_bounds example_load_config 123456789 4000000000
                (system_init 0)) as Hbounds.
  destruct (load_spike_iteration example_load_config 123456789 4000000000
              (system_init 0)) as [s' [interval duration]].
  destruct Hbounds as (_ & Hinterval & Hduration);
    [vm_compute; try split; easy ..|].
  split; [exact Hinterval|exact Hduration].
Defined.

(** ** One trigger, one sample or one warning *)

Lemma step_triggers_valid (w : world) (ev : event) :
  triggers_valid (sys w) -> triggers_valid (sys (step w ev)).
Proof.
  unfold triggers_valid. intros Hvalid.
  destruct ev as [| |inp|clk|now|cfg r1 r2];
    [cbn [step]|cbn [step]|cbn [step]| |cbn [step]|cbn [step]].
  - unfold synthetic_sensor_work_handler. rewrite k_msgq_put_no_wait. cbn.
    destruct (k_msgq_full (trigger_msgq (sys w))); cbn; [done|].
    apply Forall_app. split; [done|]. constructor; [by left|constructor].
  - unfold uptime_work_handler. rewrite k_msgq_put_no_wait. cbn.
    destruct (k_msgq_full (trigger_msgq (sys w))); cbn; [done|].
    apply Forall_app. split; [done|]. constructor; [by right|constructor].
  - unfold producer_iteration, k_msgq_get.
    destruct (msgs (trigger_msgq (sys w))) as [|tid rest] eqn:Htrig;
      [cbn; by rewrite Htrig|].
    apply Forall_cons in Hvalid as [_ Hrest]. cbn.
    rewrite !k_msgq_put_no_wait. cbn.
    repeat case_match; simplify_eq; cbn; done.
  - rewrite step_aggregator. cbn [sys]. by rewrite aggregator_cycle_sys.
  - unfold main_iteration. by destruct (10000 <=? now - last_status_time w).
  - done.
Qed.

Lemma run_triggers_valid (w : world) (evs : list event) :
  triggers_valid (sys w) -> triggers_valid (sys (run w evs)).
Proof.
  revert w. induction evs as [|ev rest IH]; intros w Hw; [done|].
  unfold run. cbn [foldl]. apply IH. by apply step_triggers_valid.
Qed.

(** X13.  In any run from boot, a producer iteration that finds a trigger
    waiting returns, takes exactly one trigger off the trigger queue, and
    either queues exactly one sample or logs exactly one warning: no trigger
    is consumed without effect. *)
Theorem X13_one_trigger_one_effect (t_boot t_start : Z) (uptime_slot : uptime_data)
    (sensor_slot : sensor_data) (trigger_slot : Z) (evs : list event)
    (inp : producer_input) :
  let w := run (world_init t_boot t_start uptime_slot sensor_slot trigger_slot) evs in
  msgs (trigger_msgq (sys w)) <> [] ->
  exists s' p',
    producer_iteration inp (sys w) (prod w) = Returns (s', p') /\
    S (length (msgs (trigger_msgq s'))) = length (msgs (trigger_msgq (sys w))) /\
    samples_and_warnings s' = S (samples_and_warnings (sys w)).
Proof.
  intros w Hwaiting.
  assert (triggers_valid (sys w)) as Hvalid.
  { apply run_triggers_valid. constructor. }
  unfold triggers_valid in Hvalid.
  unfold producer_iteration, k_msgq_get, samples_and_warnings.
  destruct (msgs (trigger_msgq (sys w))) as [|tid rest]; [done|].
  apply Forall_cons in Hvalid as [Htid _]. cbn.
  rewrite !k_msgq_put_no_wait. cbn. change (- ENOMSG =? 0) with false.
  destruct Htid as [-> | ->]; cbn.
  - destruct (k_msgq_full (sensor_msgq (sys w))); cbn;
      eexists _, _; (split; [reflexivity|]);
      change (- ENOMSG =? 0) with false; cbn; rewrite ?length_app; cbn;
      split; lia.
  - destruct (k_msgq_full (uptime_msgq (sys w))); cbn;
      eexists _, _; (split; [reflexivity|]);
      change (- ENOMSG =? 0) with false; cbn; rewrite ?length_app; cbn;
      split; lia.
Qed.

(** After the first expiry of the sensor timer the producer queues one
    sample. *)
Lemma X13_witness_first_trigger :
  exists s' p',
    producer_iteration (producer_at 50)
      (sys (run (cold_boot zeroed_slot) [SensorTimerExpiry]))
      (prod (run (cold_boot zeroed_slot) [SensorTimerExpiry])) = Returns (s', p') /\
    msgs (trigger_msgq s') = [] /\
    samples_and_warnings s' = 1%nat.
Proof.
  destruct (X13_one_trigger_one_effect 0 0 zeroed_slot any_sensor_slot 0
              [SensorTimerExpiry] (producer_at 50))
    as (s' & p' & Hret & Htrig & Hcount); [done|].
  exists s', p'. split; [exact Hret|]. split; [|exact Hcount].
  cbn in Htrig. by destruct (msgs (trigger_msgq s')).
Defined.

(** ** The average buffer along a run *)

Lemma buffer_after_app (history more : list sensor_data) :
  buffer_after (history ++ more) =
  foldl add_sensor_to_avg_buffer (buffer_after history) more.
Proof. unfold buffer_after. apply foldl_app. Qed.

Lemma run_avg_buffer (w : world) (evs : list event) (history : list sensor_data) :
  avg_buffer (agg w) = buffer_after history ->
  avg_buffer (agg (run w evs)) = buffer_after (history ++ drained_samples w evs).
Proof.
  revert w history. induction evs as [|ev rest IH]; intros w history Hbuffer.
  - cbn. by rewrite app_nil_r.
  - unfold run. cbn [foldl drained_samples]. rewrite app_assoc. apply IH.
    destruct (is_aggregator_event ev) eqn:Hev.
    + destruct ev as [| |inp|clk|now|cfg r1 r2]; try done.
      rewrite step_aggregator. cbn [agg].
      by rewrite aggregator_cycle_avg_buffer, buffer_after_app, Hbuffer.
    + rewrite step_agg by (by intros clk ->).
      destruct ev; try done; by rewrite app_nil_r.
Qed.

Lemma drained_samples_in_range (w : world) (evs : list event) :
  world_inv w ->
  Forall (fun d => value_in_range (sensor_value d)) (drained_samples w evs).
Proof.
  revert w. induction evs as [|ev rest IH]; intros w Hw; [constructor|].
  cbn [drained_samples]. apply Forall_app. split.
  - destruct ev; try constructor. apply Hw.
  - apply IH. by apply step_inv.
Qed.

(** X14.  In any run from boot the average buffer is the zeroed buffer with
    all samples drained so far inserted in the order of their publication,
    every one of them a value between 0 and 100; and the average of the next
    frame is read from that buffer with the pending samples of the sensor
    queue inserted as well. *)
Theorem X14_buffer_is_drained_history (t_boot t_start : Z) (uptime_slot : uptime_data)
    (sensor_slot : sensor_data) (trigger_slot : Z) (evs : list event)
    (clk : aggregator_clock) :
  let w0 := world_init t_boot t_start uptime_slot sensor_slot trigger_slot in
  let w := run w0 evs in
  let pending := msgs (sensor_msgq (sys w)) in
  avg_buffer (agg w) = buffer_after (drained_samples w0 evs) /\
  Forall (fun d => value_in_range (sensor_value d)) (drained_samples w0 evs ++ pending) /\
  sensor_avg_last_200ms (cycle_frame clk (sys w) (agg w)) =
    calculate_sensor_avg_200ms (buffer_after (drained_samples w0 evs ++ pending))
      (t_avg clk).
Proof.
  intros w0 w pending.
  assert (avg_buffer (agg w) = buffer_after (drained_samples w0 evs)) as Hbuffer.
  { unfold w. by rewrite (run_avg_buffer w0 evs []). }
  split; [exact Hbuffer|]. split.
  - apply Forall_app. split.
    + apply drained_samples_in_range, world_init_inv.
    + apply (run_inv w0 evs (world_init_inv _ _ _ _ _)).
  - rewrite cycle_frame_eq. cbn [sensor_avg_last_200ms].
    by rewrite buffer_after_app, Hbuffer.
Qed.

(** ** The spacing of status lines *)

Lemma spaced_by_10_snoc (previous : Z) (uptimes : list Z) (u : Z) :
  spaced_by_10 previous (uptimes ++ [u]) <->
  spaced_by_10 previous uptimes /\ default previous (last uptimes) + 10 <= u.
Proof.
  revert previous. induction uptimes as [|first uptimes IH]; intros previous.
  - cbn. tauto.
  - cbn [app spaced_by_10]. rewrite IH, default_last_cons. tauto.
Qed.

Lemma status_uptimes_app (l1 l2 : list console_line) :
  status_uptimes (l1 ++ l2) = status_uptimes l1 ++ status_uptimes l2.
Proof. unfold status_uptimes. apply omap_app. Qed.

(** The invariant behind X15: the last printed uptime (0 if none) is not
    above the uptime at [last_status_time], which is not before the start
    time. *)
Lemma step_status_spacing (w : world) (ev : event) :
  let uptimes w := status_uptimes (console (sys w)) in
  system_start_time (sys w) <= last_status_time w ->
  default 0 (last (uptimes w))
    <= Z.quot (last_status_time w - system_start_time (sys w)) 1000 ->
  spaced_by_10 0 (uptimes w) ->
  system_start_time (sys (step w ev)) = system_start_time (sys w) /\
  system_start_time (sys w) <= last_status_time (step w ev) /\
  default 0 (last (uptimes (step w ev)))
    <= Z.quot (last_status_time (step w ev) - system_start_time (sys w)) 1000 /\
  spaced_by_10 0 (uptimes (step w ev)).
Proof.
  intros uptimes Hstart Hlast Hspaced. unfold uptimes in *.
  destruct ev as [| |inp|clk|now|cfg r1 r2];
    [cbn [step]|cbn [step]|cbn [step]| |cbn [step]|cbn [step]].
  - destruct (synthetic_sensor_work_handler_frame (sys w)) as (s' & Hs & _ & Hl).
    destruct (synthetic_sensor_work_handler_uptime (sys w)) as (s'' & Hs' & Ht & _).
    rewrite Hs in Hs'. injection Hs' as <-. rewrite Hs. cbn. by rewrite Hl, Ht.
  - destruct (uptime_work_handler_frame (sys w)) as (s' & Hs & _ & Hl).
    destruct (uptime_work_handler_uptime (sys w)) as (s'' & Hs' & Ht & _).
    rewrite Hs in Hs'. injection Hs' as <-. rewrite Hs. cbn. by rewrite Hl, Ht.
  - destruct (producer_iteration inp (sys w) (prod w)) as [[s' p']|] eqn:Hp; [|done].
    destruct (producer_iteration_frame _ _ _ _ _ Hp) as [_ Hl].
    destruct (producer_iteration_uptime _ _ _ _ _ Hp) as [Ht _].
    cbn. by rewrite Hl, Ht.
  - rewrite step_aggregator. cbn [sys last_status_time].
    rewrite aggregator_cycle_sys. cbn [system_start_time console].
    rewrite status_uptimes_app. cbn. by rewrite app_nil_r.
  - unfold main_iteration.
    destruct (10000 <=? now - last_status_time w) eqn:Hdue; cbn; [|done].
    apply Z.leb_le in Hdue.
    rewrite status_uptimes_app. cbn. rewrite last_snoc. cbn.
    split; [done|]. split; [lia|]. split; [lia|].
    apply spaced_by_10_snoc. split; [done|]. mod_lia.
  - done.
Qed.

(** X15.  Start the monitoring loop with nothing printed yet and its
    [last_status_time] not before the start time.  Then in any run the
    uptimes printed in the status lines are at least 10 s apart, and the
    first one is at least 10 s. *)
Theorem X15_status_lines_10s_apart (w : world) (evs : list event) :
  console (sys w) = [] ->
  system_start_time (sys w) <= last_status_time w ->
  spaced_by_10 0 (status_uptimes (console (sys (run w evs)))).
Proof.
  intros Hconsole Hstart.
  assert (forall w,
            system_start_time (sys w) <= last_status_time w ->
            default 0 (last (status_uptimes (console (sys w))))
              <= Z.quot (last_status_time w - system_start_time (sys w)) 1000 ->
            spaced_by_10 0 (status_uptimes (console (sys w))) ->
            spaced_by_10 0 (status_uptimes (console (sys (run w evs))))) as Hrun.
  { clear. induction evs as [|ev rest IH]; intros w Hstart Hlast Hspaced; [done|].
    unfold run. cbn [foldl].
    destruct (step_status_spacing w ev Hstart Hlast Hspaced)
      as (Hsame & Hstart' & Hlast' & Hspaced').
    apply IH; by rewrite ?Hsame. }
  apply Hrun; [done| |by rewrite Hconsole].
  rewrite Hconsole. cbn. mod_lia.
Qed.

(** The monitoring loop waking at 5, 10, 15, 20.001 and 25.001 s after boot
    prints at 10 and 20.001 s. *)
Lemma X15_witness_monitoring :
  status_uptimes (console (sys (run (cold_boot zeroed_slot) monitoring_trace)))
    = [10; 20] /\
  spaced_by_10 0
    (status_uptimes (console (sys (run (cold_boot zeroed_slot) monitoring_trace)))).
Proof.
  split; [reflexivity|].
  apply (X15_status_lines_10s_apart (cold_boot zeroed_slot) monitoring_trace).
  - reflexivity.
  - cbn. lia.
Defined.

(** ** What every emitted frame satisfies *)

Lemma cycle_frame_fields_ok (clk : aggregator_clock) (w : world) :
  world_inv w -> frame_fields_ok (cycle_frame clk (sys w) (agg w)).
Proof.
  intros [Hqueue Hvalues Hwf]. rewrite cycle_frame_eq. unfold frame_fields_ok.
  cbn [latest_sensor_value degraded sensor_avg_last_200ms].
  destruct (drain_preserves_buffer _ _ Hqueue Hvalues Hwf) as [Hvalues' Hwf'].
  split; [|split]; [| |by apply calculate_sensor_avg_200ms_range].
  - unfold last_drained.
    destruct (last (msgs (sensor_msgq (sys w)))) as [m|] eqn:Hlast; [|by left].
    destruct (is_data_fresh (sensor_timestamp m) (t_frame clk) 60); [|by left].
    right. rewrite Forall_forall in Hqueue.
    by apply Hqueue, last_Some_elem_of.
  - unfold sensor_fresh_b, last_drained.
    destruct (last (msgs (sensor_msgq (sys w)))) as [m|] eqn:Hlast;
      [|intros _; by rewrite orb_true_r].
    destruct (is_data_fresh (sensor_timestamp m) (t_frame clk) 60);
      [|intros _; by rewrite orb_true_r].
    intros Hsentinel. rewrite Forall_forall in Hqueue.
    assert (value_in_range (sensor_value m)) as Hm
      by (by apply Hqueue, last_Some_elem_of).
    unfold value_in_range in Hm. lia.
Qed.

(** X16.  In any run from boot every emitted frame has a sensor field that is
    -1 or between 0 and 100, is degraded whenever the sensor field is -1, and
    has an average between 0 and 100. *)
Theorem X16_emitted_frames_fields (t_boot t_start : Z) (uptime_slot : uptime_data)
    (sensor_slot : sensor_data) (trigger_slot : Z) (evs : list event) :
  Forall frame_fields_ok
    (emitted_frames
       (run (world_init t_boot t_start uptime_slot sensor_slot trigger_slot) evs)).
Proof.
  assert (forall w, world_inv w -> Forall frame_fields_ok (emitted_frames w) ->
                    Forall frame_fields_ok (emitted_frames (run w evs))) as Hrun.
  { induction evs as [|ev rest IH]; intros w Hw Hframes; [done|].
    unfold run. cbn [foldl]. apply IH; [by apply step_inv|].
    destruct (is_aggregator_event ev) eqn:Hev.
    - destruct ev as [| |inp|clk|now|cfg r1 r2]; try done.
      destruct (step_aggregator_frames w clk) as [_ ->].
      apply Forall_app. split; [done|].
      constructor; [by apply cycle_frame_fields_ok|constructor].
    - by destruct (step_other_frames w ev Hev) as [_ ->]. }
  apply Hrun; [apply world_init_inv|constructor].
Qed.
